(** * Pulses service: a shallow embedding and its properties

    The development follows [src/assessments/pulses/pulses.service.ts] and
    the pulses controller.  Asynchronous methods are modelled in a small
    monad that threads the observable world (database tables, logger,
    issued lambda invocations, broadcasts) and carries the outcome of a
    promise: resolved with a value, or rejected with an exception.  A
    rejection keeps the effects performed before it, as in JavaScript. *)

From Stdlib Require Import ZArith List String Bool Lia DecimalString RelationClasses Permutation.
Import ListNotations.

Local Open Scope Z_scope.
Local Open Scope string_scope.

(** ** Promise outcomes and the effect monad *)

Inductive Exn : Type :=
| TypeError (msg : string)
| UniqueConstraintError (field : string)
| ServiceException (msg : string).

Inductive Outcome (A : Type) : Type :=
| Resolved (a : A)
| Rejected (e : Exn).

Arguments Resolved {A} a.
Arguments Rejected {A} e.

(** ** Data model

    Only [target.model.ts] is among the sources; the other records carry
    the columns that the service reads or writes. *)

Inductive PulseStatus : Type :=
| Pending | InProgress | Completed | PartialFailure | TimedOut.

Definition PulseStatus_eqb (a b : PulseStatus) : bool :=
  match a, b with
  | Pending, Pending | InProgress, InProgress | Completed, Completed
  | PartialFailure, PartialFailure | TimedOut, TimedOut => true
  | _, _ => false
  end.

Module Membership.
Record t : Type := { id : Z }.
End Membership.

Module User.
(** [memberships] is a JavaScript array: an entry is a membership object
    or a hole ([null]/[undefined]), written [None]. *)
Record t : Type := { id : Z; memberships : list (option Membership.t) }.
End User.

Module Url.
Record t : Type := { id : Z; url : string }.
End Url.

Module Target.
Record t : Type := {
  id : Z;
  stage : Z;
  provider : Z;
  name : string;
  lambdaArn : option string;
  slug : string;
  createdAt : Z;
  updatedAt : Z;
  deletedAt : option Z
}.
End Target.

Module Heartbeat.
Record t : Type := {
  pulseId : Z;
  slotId : Z;
  payload : string;
  receivedAt : Z
}.
End Heartbeat.

Module Pulse.
Record t : Type := {
  id : Z;
  slug : string;
  urlId : Z;
  targetId : option Z;
  playlistId : Z;
  status : PulseStatus;
  createdAt : Z
}.

Definition withStatus (p : t) (s : PulseStatus) : t :=
  {| id := id p; slug := slug p; urlId := urlId p; targetId := targetId p;
     playlistId := playlistId p; status := s; createdAt := createdAt p |}.

(** What [findOne] hands back with its [include] list: the row and the
    eagerly loaded associations. *)
Record loaded : Type := {
  row : t;
  heartbeats : list Heartbeat.t;
  url : option Url.t;
  target : option Target.t
}.
End Pulse.

Module PulsesDto.
Record t : Type := { url : string; playlistId : Z }.
End PulsesDto.

(** The object literal handed to [JSON.stringify] in [triggerPulse] is
    flat; the serialised text is represented by the fields it encodes, in
    the order they are written. *)
Inductive JsonValue : Type :=
| JString (s : string)
| JNumber (n : Z)
| JBool (b : bool).

Definition Json : Type := list (string * JsonValue).

Fixpoint Json_get (k : string) (fields : Json) : option JsonValue :=
  match fields with
  | [] => None
  | (k', v) :: rest => if String.eqb k k' then Some v else Json_get k rest
  end.

Record InvokeCommand : Type := {
  FunctionName : option string;
  Payload : Json
}.

Record InvokeCommandOutput : Type := {
  StatusCode : Z;
  ResponsePayload : option string
}.

Inductive LogEntry : Type :=
| LogInfo (msg : string)
| LogError (msg : string) (error : Exn).

Inductive Broadcast : Type :=
| RefreshPulsesTable
| HeartbeatReceived (slug : string)
| PulseCompleted (slug : string)
| PulseTimedOut (slug : string).

(** ** The world *)

Record World : Type := {
  pulses : list Pulse.t;
  pulseSeq : Z;
  heartbeats : list Heartbeat.t;
  auditLog : list Heartbeat.t;
  finalized : list Z;
  urls : list Url.t;
  targets : list Target.t;
  clock : Z;
  nanoidCalls : nat;
  invocations : list InvokeCommand;
  logger : list LogEntry;
  broadcasts : list Broadcast
}.

Definition set_pulses (ps : list Pulse.t) (w : World) : World :=
  {| pulses := ps; pulseSeq := pulseSeq w; heartbeats := heartbeats w;
     auditLog := auditLog w; finalized := finalized w; urls := urls w;
     targets := targets w; clock := clock w; nanoidCalls := nanoidCalls w;
     invocations := invocations w; logger := logger w;
     broadcasts := broadcasts w |}.

Definition set_pulseSeq (n : Z) (w : World) : World :=
  {| pulses := pulses w; pulseSeq := n; heartbeats := heartbeats w;
     auditLog := auditLog w; finalized := finalized w; urls := urls w;
     targets := targets w; clock := clock w; nanoidCalls := nanoidCalls w;
     invocations := invocations w; logger := logger w;
     broadcasts := broadcasts w |}.

Definition set_heartbeats (hs : list Heartbeat.t) (w : World) : World :=
  {| pulses := pulses w; pulseSeq := pulseSeq w; heartbeats := hs;
     auditLog := auditLog w; finalized := finalized w; urls := urls w;
     targets := targets w; clock := clock w; nanoidCalls := nanoidCalls w;
     invocations := invocations w; logger := logger w;
     broadcasts := broadcasts w |}.

Definition set_auditLog (hs : list Heartbeat.t) (w : World) : World :=
  {| pulses := pulses w; pulseSeq := pulseSeq w; heartbeats := heartbeats w;
     auditLog := hs; finalized := finalized w; urls := urls w;
     targets := targets w; clock := clock w; nanoidCalls := nanoidCalls w;
     invocations := invocations w; logger := logger w;
     broadcasts := broadcasts w |}.

Definition set_finalized (l : list Z) (w : World) : World :=
  {| pulses := pulses w; pulseSeq := pulseSeq w; heartbeats := heartbeats w;
     auditLog := auditLog w; finalized := l; urls := urls w;
     targets := targets w; clock := clock w; nanoidCalls := nanoidCalls w;
     invocations := invocations w; logger := logger w;
     broadcasts := broadcasts w |}.

Definition set_clock (t : Z) (w : World) : World :=
  {| pulses := pulses w; pulseSeq := pulseSeq w; heartbeats := heartbeats w;
     auditLog := auditLog w; finalized := finalized w; urls := urls w;
     targets := targets w; clock := t; nanoidCalls := nanoidCalls w;
     invocations := invocations w; logger := logger w;
     broadcasts := broadcasts w |}.

Definition set_nanoidCalls (n : nat) (w : World) : World :=
  {| pulses := pulses w; pulseSeq := pulseSeq w; heartbeats := heartbeats w;
     auditLog := auditLog w; finalized := finalized w; urls := urls w;
     targets := targets w; clock := clock w; nanoidCalls := n;
     invocations := invocations w; logger := logger w;
     broadcasts := broadcasts w |}.

Definition set_invocations (l : list InvokeCommand) (w : World) : World :=
  {| pulses := pulses w; pulseSeq := pulseSeq w; heartbeats := heartbeats w;
     auditLog := auditLog w; finalized := finalized w; urls := urls w;
     targets := targets w; clock := clock w; nanoidCalls := nanoidCalls w;
     invocations := l; logger := logger w;
     broadcasts := broadcasts w |}.

Definition set_logger (l : list LogEntry) (w : World) : World :=
  {| pulses := pulses w; pulseSeq := pulseSeq w; heartbeats := heartbeats w;
     auditLog := auditLog w; finalized := finalized w; urls := urls w;
     targets := targets w; clock := clock w; nanoidCalls := nanoidCalls w;
     invocations := invocations w; logger := l;
     broadcasts := broadcasts w |}.

Definition set_broadcasts (l : list Broadcast) (w : World) : World :=
  {| pulses := pulses w; pulseSeq := pulseSeq w; heartbeats := heartbeats w;
     auditLog := auditLog w; finalized := finalized w; urls := urls w;
     targets := targets w; clock := clock w; nanoidCalls := nanoidCalls w;
     invocations := invocations w; logger := logger w;
     broadcasts := l |}.

(** ** The monad of asynchronous computations *)

Definition M (A : Type) : Type := World -> Outcome A * World.

Definition ret {A} (a : A) : M A := fun w => (Resolved a, w).

Definition throw {A} (e : Exn) : M A := fun w => (Rejected e, w).

Definition bind {A B} (m : M A) (k : A -> M B) : M B :=
  fun w =>
    match m w with
    | (Resolved a, w') => k a w'
    | (Rejected e, w') => (Rejected e, w')
    end.

(** [try { body } catch (error) { handler }] *)
Definition try_catch {A} (body : M A) (handler : Exn -> M A) : M A :=
  fun w =>
    match body w with
    | (Resolved a, w') => (Resolved a, w')
    | (Rejected e, w') => handler e w'
    end.

(** Reading the world. *)
Definition gets {A} (f : World -> A) : M A := fun w => (Resolved (f w), w).

(** Awaiting a collaborator whose outcome is given. *)
Definition await {A} (o : Outcome A) : M A := fun w => (o, w).

Declare Scope async_scope.
Delimit Scope async_scope with async.
Notation "x <- m ;; k" := (bind m (fun x => k))
  (at level 61, m at next level, right associativity) : async_scope.
Notation "m ;; k" := (bind m (fun _ => k))
  (at level 61, right associativity) : async_scope.
Local Open Scope async_scope.

(** A relation between the world before and the world after holds of a
    computation. *)
Definition respects (R : World -> World -> Prop) {A} (m : M A) : Prop :=
  forall w, R w (snd (m w)).

(** The heartbeats table is left as it was. *)
Definition sameHeartbeats (w w' : World) : Prop :=
  heartbeats w' = heartbeats w.

(** The pulses table and the slug generator are left as they were. *)
Definition samePulses (w w' : World) : Prop :=
  pulses w' = pulses w /\ nanoidCalls w' = nanoidCalls w.

(** The tables a pulse is joined with are left as they were. *)
Definition sameAssociations (w w' : World) : Prop :=
  heartbeats w' = heartbeats w /\ urls w' = urls w /\ targets w' = targets w.

Definition string_of_Z (z : Z) : string := NilZero.string_of_int (Z.to_int z).

(** ** Collaborators injected into the service *)

(** The [Pulse] model class ([typeof Pulse]).  Its declaration
    ([models/pulse.model.ts]) is not among the sources: whether the [slug]
    column carries a unique index, and the default of the [status]
    column, are what the declaration would fix. *)
Record PulseModel : Type := {
  slugUnique : bool;
  statusDefault : PulseStatus
}.

Record UrlsService : Type := {
  urlByFQDN : string -> Outcome (option Url.t)
}.

Record UsersService : Type := {
  findUser : Z -> Outcome (option User.t)
}.

Record NotificationsService : Type := {
  refreshPulsesTable : Outcome unit
}.

Record ProcessEnv : Type := {
  ADHOC_TRIGGER_LAMBDA_ARN : option string;
  IS_BETA : option string
}.

(** What [pulses.service.ts] imports or reads from its module scope:
    [nanoid] (the n-th call yields [nanoid n]), [prependWWW] from
    [utils/pulses], the module-level [lambdaClient] and [process.env]. *)
Class Imports : Type := {
  nanoid : nat -> string;
  prependWWW : string -> string;
  lambdaClient : InvokeCommand -> Outcome InvokeCommandOutput;
  process_env : ProcessEnv
}.

(** The spread [...paginationParams] of a listing: the [offset] and
    [limit] options of the query, each possibly absent. *)
Record PaginationParams : Type := {
  offset : option nat;
  limit : option nat
}.

(** What the listings of [pulses.service.ts] import from [utils/lists],
    [getPaginationParams] and [getSortParams], and the ORDER BY of the
    database, which rearranges the selected rows and nothing more. *)
Class Lists : Type := {
  Order : Type;
  getPaginationParams : option Z -> option Z -> PaginationParams;
  getSortParams : string -> Order;
  orderBy : Order -> list Pulse.t -> list Pulse.t;
  orderBy_permutes : forall o l, Permutation (orderBy o l) l
}.

(** ** [PulsesService] *)

Module PulsesService.

Record t : Type := {
  pulse : PulseModel;
  urlsService : UrlsService;
  notificationsService : NotificationsService;
  usersService : UsersService
}.

Section Methods.
Context {imports : Imports}.
Variable this : t.

(** *** Primitive effects *)

(** [nanoid()]: one more call to the generator. *)
Definition nanoid_call : M string :=
  fun w => (Resolved (nanoid (nanoidCalls w)),
            set_nanoidCalls (S (nanoidCalls w)) w).

Definition logger_log (msg : string) : M unit :=
  fun w => (Resolved tt, set_logger (logger w ++ [LogInfo msg]) w).

Definition logger_error (msg : string) (error : Exn) : M unit :=
  fun w => (Resolved tt, set_logger (logger w ++ [LogError msg error]) w).

(** [this.notificationsService.refreshPulsesTable()], a synchronous
    call: the broadcast is placed when the call returns. *)
Definition notify_refreshPulsesTable : M unit :=
  fun w =>
    match refreshPulsesTable (notificationsService this) with
    | Resolved _ => (Resolved tt, set_broadcasts (broadcasts w ++ [RefreshPulsesTable]) w)
    | Rejected e => (Rejected e, w)
    end.

(** [lambdaClient.send(command)]: the command leaves the process, then
    the client resolves or rejects. *)
Definition lambdaClient_send (command : InvokeCommand) : M InvokeCommandOutput :=
  fun w => (lambdaClient command, set_invocations (invocations w ++ [command]) w).

(** No two rows of the pulses table share a slug. *)
Definition uniqueSlugs (w : World) : Prop :=
  NoDup (map Pulse.slug (pulses w)).

Definition slugTaken (slug : string) (w : World) : bool :=
  existsb (fun p => String.eqb (Pulse.slug p) slug) (pulses w).

(** [this.pulse.create({ slug, urlId, playlistId })]: one INSERT.  The
    columns that are not given take their defaults; with a unique
    index on [slug] the insert of a taken slug is refused and no row
    is written. *)
Definition Pulse_build (slug : string) (urlId playlistId : Z) (w : World) : Pulse.t :=
  {| Pulse.id := pulseSeq w;
     Pulse.slug := slug;
     Pulse.urlId := urlId;
     Pulse.targetId := None;
     Pulse.playlistId := playlistId;
     Pulse.status := statusDefault (pulse this);
     Pulse.createdAt := clock w |}.

Definition Pulse_create (slug : string) (urlId playlistId : Z) : M Pulse.t :=
  fun w =>
    if slugUnique (pulse this) && slugTaken slug w
    then (Rejected (UniqueConstraintError "slug"), w)
    else
      let row := Pulse_build slug urlId playlistId w in
      (Resolved row, set_pulseSeq (pulseSeq w + 1) (set_pulses (pulses w ++ [row]) w)).

(** The associations named in the [include] option.  [Target] is a
    paranoid model: a soft-deleted target is not joined. *)
Definition Pulse_include (w : World) (p : Pulse.t) : Pulse.loaded :=
  {| Pulse.row := p;
     Pulse.heartbeats :=
       filter (fun h => Z.eqb (Heartbeat.pulseId h) (Pulse.id p)) (heartbeats w);
     Pulse.url := find (fun u => Z.eqb (Url.id u) (Pulse.urlId p)) (urls w);
     Pulse.target :=
       match Pulse.targetId p with
       | Some tid =>
           find (fun g => Z.eqb (Target.id g) tid &&
                          match Target.deletedAt g with None => true | Some _ => false end)
                (targets w)
       | None => None
       end |}.

(** [this.pulse.findOne({ where: { slug }, include })] *)
Definition Pulse_findOne_by_slug (slug : string) : M (option Pulse.loaded) :=
  fun w =>
    (Resolved (option_map (Pulse_include w)
                 (find (fun p => String.eqb (Pulse.slug p) slug) (pulses w))),
     w).

(** *** Methods *)

Definition getPulse (slug : string) : M (option Pulse.loaded) :=
  Pulse_findOne_by_slug slug.

(** [urlRecord.id]: reading a property of [null] throws. *)
Definition Url_id_of (urlRecord : option Url.t) : M Z :=
  match urlRecord with
  | Some u => ret (Url.id u)
  | None => throw (TypeError "Cannot read properties of null (reading 'id')")
  end.

Definition createPulse (dto : PulsesDto.t) : M Pulse.t :=
  let sanitizedUrl := prependWWW (PulsesDto.url dto) in
  urlRecord <- await (urlByFQDN (urlsService this) sanitizedUrl) ;;
  slug <- nanoid_call ;;
  urlId <- Url_id_of urlRecord ;;
  pulse <- Pulse_create slug urlId (PulsesDto.playlistId dto) ;;
  logger_log ("Created pulse " ++ string_of_Z (Pulse.id pulse) ++
              " with slug " ++ slug) ;;
  notify_refreshPulsesTable ;;
  ret pulse.

(** [Boolean(entry)] on an array entry: an object is truthy, a hole is
    not. *)
Definition Boolean (entry : option Membership.t) : bool :=
  match entry with Some _ => true | None => false end.

(** [user.memberships]: reading a property of [null] throws. *)
Definition User_memberships_of (user : option User.t) : M (list (option Membership.t)) :=
  match user with
  | Some u => ret (User.memberships u)
  | None => throw (TypeError "Cannot read properties of null (reading 'memberships')")
  end.

(** [memberships.find(Boolean).id]: [find] yields [undefined] when no
    entry is truthy, and reading [id] of [undefined] throws. *)
Definition first_membership_id (memberships : list (option Membership.t)) : M Z :=
  match find Boolean memberships with
  | Some (Some m) => ret (Membership.id m)
  | _ => throw (TypeError "Cannot read properties of undefined (reading 'id')")
  end.

Definition isBeta : bool :=
  match IS_BETA process_env with
  | Some v => String.eqb v "true"
  | None => false
  end.

(** The [params] object of [triggerPulse]; [Payload] is
    [JSON.stringify({ url, membership_id, isBeta })]. *)
Definition invokeParams (url : string) (membership_id : Z) : InvokeCommand :=
  {| FunctionName := ADHOC_TRIGGER_LAMBDA_ARN process_env;
     Payload := [("url", JString url);
                 ("membership_id", JNumber membership_id);
                 ("isBeta", JBool isBeta)] |}.

Definition triggerPulse (dto : PulsesDto.t) (requester : User.t) : M unit :=
  let url := PulsesDto.url dto in
  let id := User.id requester in
  user <- await (findUser (usersService this) id) ;;
  memberships <- User_memberships_of user ;;
  membership_id <- first_membership_id memberships ;;
  let params := invokeParams url membership_id in
  try_catch
    (let command := params in
     _ <- lambdaClient_send command ;;
     ret tt)
    (fun error => logger_error "Error invoking lambda:" error).

End Methods.

Section Listings.
Context {lists : Lists}.

(** What [findAndCountAll] resolves to. *)
Record Page : Type := {
  rows : list Pulse.loaded;
  count : nat
}.

(** [createdAt BETWEEN from AND to].  An absent bound is sent as NULL;
    the comparison is then unknown and the row is not selected. *)
Definition between (x : Z) (from to : option Z) : bool :=
  match from, to with
  | Some a, Some b => Z.leb a x && Z.leb x b
  | _, _ => false
  end.

Definition targetIs (id : Z) (p : Pulse.t) : bool :=
  match Pulse.targetId p with
  | Some t => Z.eqb t id
  | None => false
  end.

Definition urlIs (id : Z) (p : Pulse.t) : bool := Z.eqb (Pulse.urlId p) id.

(** OFFSET and LIMIT on the ordered rows. *)
Definition paginate {A} (pg : PaginationParams) (l : list A) : list A :=
  let skipped := match offset pg with Some n => skipn n l | None => l end in
  match limit pg with Some n => firstn n skipped | None => skipped end.

Definition heartbeatsOf (w : World) (p : Pulse.t) : list Heartbeat.t :=
  filter (fun h => Z.eqb (Heartbeat.pulseId h) (Pulse.id p)) (heartbeats w).

(** The associations of a listed row; [Target] is joined only where the
    [include] option names it. *)
Definition Pulse_include_list (withTarget : bool) (w : World) (p : Pulse.t) : Pulse.loaded :=
  {| Pulse.row := p;
     Pulse.heartbeats := heartbeatsOf w p;
     Pulse.url := find (fun u => Z.eqb (Url.id u) (Pulse.urlId p)) (urls w);
     Pulse.target :=
       if withTarget then Pulse.target (Pulse_include w p) else None |}.

(** Rows a pulse contributes to the LEFT OUTER JOIN with its
    associations: one per joined row of each association, and one where
    an association has none. *)
Definition joinedRows (withTarget : bool) (w : World) (p : Pulse.t) : nat :=
  (Nat.max 1 (List.length (heartbeatsOf w p)) *
   Nat.max 1 (List.length (filter (fun u => Z.eqb (Url.id u) (Pulse.urlId p)) (urls w))) *
   (if withTarget
    then Nat.max 1 (List.length
           (filter (fun g =>
                      match Pulse.targetId p with
                      | Some tid =>
                          Z.eqb (Target.id g) tid &&
                          match Target.deletedAt g with None => true | Some _ => false end
                      | None => false
                      end) (targets w)))
    else 1))%nat.

(** [this.pulse.findAndCountAll(options)]: the rows are the selected
    pulses, ordered and paginated, with their associations; the count
    ignores order and pagination.  With [distinct: true] it counts the
    distinct primary keys of the selected pulses, without it the rows of
    the join. *)
Definition Pulse_findAndCountAll (pg : PaginationParams) (order : Order)
           (where_ : Pulse.t -> bool) (withTarget distinct : bool) : M Page :=
  fun w =>
    let selected := filter where_ (pulses w) in
    (Resolved
       {| rows := map (Pulse_include_list withTarget w)
                      (paginate pg (orderBy order selected));
          count := if distinct
                   then List.length (nodup Z.eq_dec (map Pulse.id selected))
                   else list_sum (map (joinedRows withTarget w) selected) |},
     w).

(** The pulse is on the page. *)
Definition listed (page : Page) (p : Pulse.t) : Prop :=
  exists r, In r (rows page) /\ Pulse.row r = p.

Definition pulsesByTarget (id : Z) (sort : string) (from to : option Z)
           (startRow endRow : option Z) : M Page :=
  let paginationParams := getPaginationParams startRow endRow in
  Pulse_findAndCountAll paginationParams (getSortParams sort)
    (fun p => targetIs id p && between (Pulse.createdAt p) from to)
    true false.

Definition pulsesByUrl (id : Z) (sort : string) (from to : option Z)
           (startRow endRow : option Z) : M Page :=
  let paginationParams := getPaginationParams startRow endRow in
  Pulse_findAndCountAll paginationParams (getSortParams sort)
    (fun p => urlIs id p && between (Pulse.createdAt p) from to)
    false false.

Definition allPulses (sort : string) (from to : option Z)
           (startRow endRow : option Z) : M Page :=
  let paginationParams := getPaginationParams startRow endRow in
  Pulse_findAndCountAll paginationParams (getSortParams sort)
    (fun p => between (Pulse.createdAt p) from to)
    true true.

End Listings.
End PulsesService.

(** ** [PulsesController] *)

Module PulsesController.
Section Routes.
Context {imports : Imports}.
Variable pulsesService : PulsesService.t.

(** The authenticated request, as the guard leaves it. *)
Record Request : Type := { user : User.t }.

(** [GET /pulses/:slug] *)
Definition getPulse (slug : string) : M (option Pulse.loaded) :=
  PulsesService.getPulse slug.

(** [POST /pulses] *)
Definition createPulse (dto : PulsesDto.t) (req : Request) : M unit :=
  PulsesService.triggerPulse pulsesService dto (user req).
End Routes.

Section ListingRoutes.
Context {lists : Lists}.

(** [GET /pulses] *)
Definition getPulses (sort : string) (from to : option Z)
           (startRow endRow : option Z) : M PulsesService.Page :=
  PulsesService.allPulses sort from to startRow endRow.

End ListingRoutes.
End PulsesController.

(** ** Pulse orchestration: store transitions, heartbeat ingestion, reaper

    The sources hold the CRUD surface of the pulses service only.  The
    components below are the ones the specification describes around it
    (sections 4.2, 4.3 and 4.6); they act on the same world. *)

Module Orchestration.

Inductive Rejection : Type := PulseNotFound | PulseTerminal.

Inductive IngestResult : Type :=
| Accepted
| Duplicate
| RejectedHeartbeat (why : Rejection).

Definition isTerminal (s : PulseStatus) : bool :=
  match s with
  | Completed | PartialFailure | TimedOut => true
  | Pending | InProgress => false
  end.

(** Position of a status along Pending, InProgress, terminal. *)
Definition rank (s : PulseStatus) : nat :=
  match s with
  | Pending => 0
  | InProgress => 1
  | Completed | PartialFailure | TimedOut => 2
  end.

Definition pulseById (pulseId : Z) (w : World) : option Pulse.t :=
  find (fun p => Z.eqb (Pulse.id p) pulseId) (pulses w).

Definition keyed (pulseId slotId : Z) (h : Heartbeat.t) : bool :=
  Z.eqb (Heartbeat.pulseId h) pulseId && Z.eqb (Heartbeat.slotId h) slotId.

(** Accepted heartbeats of a pulse. *)
Definition acceptedCount (pulseId : Z) (w : World) : nat :=
  List.length (filter (fun h => Z.eqb (Heartbeat.pulseId h) pulseId) (heartbeats w)).

(** Accepted heartbeats of one (pulse, slot) pair. *)
Definition acceptedFor (pulseId slotId : Z) (w : World) : nat :=
  List.length (filter (keyed pulseId slotId) (heartbeats w)).

(** Modelled from the spec: the Pulse Store's
    [transition(pulseId, fromStatuses, toStatus) -> bool] (section 4.2),
    absent from the sources: a conditional update that succeeds only if
    the current status is among [fromStatuses], and is a no-op answering
    false otherwise. *)
Definition transition (pulseId : Z) (fromStatuses : list PulseStatus)
           (toStatus : PulseStatus) : M bool :=
  fun w =>
    let hit p := Z.eqb (Pulse.id p) pulseId &&
                 existsb (PulseStatus_eqb (Pulse.status p)) fromStatuses in
    (Resolved (existsb hit (pulses w)),
     set_pulses (map (fun p => if hit p then Pulse.withStatus p toStatus else p)
                     (pulses w)) w).

(** Modelled from the spec: the unique-keyed insert of a heartbeat
    (sections 4.3 and 5), absent from the sources: the row is added
    unless a heartbeat with the same (pulseId, slotId) is stored. *)
Definition insertHeartbeat (h : Heartbeat.t) : M bool :=
  fun w =>
    if existsb (keyed (Heartbeat.pulseId h) (Heartbeat.slotId h)) (heartbeats w)
    then (Resolved false, w)
    else (Resolved true, set_heartbeats (heartbeats w ++ [h]) w).

(** Modelled from the spec: [publish(event)] of the notification fan-out
    (section 4.5), absent from the sources; a failure to publish is
    never propagated. *)
Definition publish (e : Broadcast) : M unit :=
  fun w => (Resolved tt, set_broadcasts (broadcasts w ++ [e]) w).

(** Modelled from the spec: the hand-off to [finalize] (section 4.4),
    absent from the sources.  Only the hand-off is recorded; the baseline
    arithmetic plays no part in what follows. *)
Definition finalize (pulseId : Z) : M unit :=
  fun w => (Resolved tt, set_finalized (finalized w ++ [pulseId]) w).

(** The heartbeat row of a delivery, stamped with the time of receipt. *)
Definition delivered (pulseId slotId : Z) (payload : string) (w : World) : Heartbeat.t :=
  {| Heartbeat.pulseId := pulseId; Heartbeat.slotId := slotId;
     Heartbeat.payload := payload; Heartbeat.receivedAt := clock w |}.

Definition recordForAudit (h : Heartbeat.t) : M unit :=
  fun w => (Resolved tt, set_auditLog (auditLog w ++ [h]) w).

(** [q] is the row [p] at a later time: the same row but for its
    status, which has stayed or moved forward. *)
Definition advances (p q : Pulse.t) : Prop :=
  q = Pulse.withStatus p (Pulse.status q) /\
  (Pulse.status q = Pulse.status p \/
   (rank (Pulse.status p) < rank (Pulse.status q))%nat).

(** The table [ps'] is the table [ps] at a later time: every row is
    still in its place, possibly advanced, and rows may have been
    appended. *)
Definition evolves (ps ps' : list Pulse.t) : Prop :=
  exists qs extra, ps' = (qs ++ extra)%list /\ Forall2 advances ps qs.

Definition pulsesEvolve (w w' : World) : Prop := evolves (pulses w) (pulses w').

Definition hbKey (h : Heartbeat.t) : Z * Z :=
  (Heartbeat.pulseId h, Heartbeat.slotId h).

(** The uniqueness constraint of the heartbeats table. *)
Definition keysUnique (w : World) : Prop :=
  NoDup (map hbKey (heartbeats w)).

(** Every stored heartbeat belongs to a stored pulse. *)
Definition owned (w : World) : Prop :=
  forall h, In h (heartbeats w) -> pulseById (Heartbeat.pulseId h) w <> None.

Section Components.
Context {imports : Imports}.
Variable this : PulsesService.t.

(** Playlist configuration, read-only to the core: the number of slots
    a playlist expects. *)
Variable expectedSlots : Z -> nat.

(** The fixed completion timeout of the reaper. *)
Variable completionTimeout : Z.

(** Modelled from the spec: what the Heartbeat Aggregator does after a
    successful insertion (section 4.3), absent from the sources: on
    the first accepted heartbeat move Pending to InProgress; recompute
    the accepted count, and when it equals the expected slot count
    move InProgress to Completed and hand off to finalize, which only
    the caller that wins the transition does. *)
Definition settle (p : Pulse.t) : M IngestResult :=
  count <- gets (acceptedCount (Pulse.id p)) ;;
  (if Nat.eqb count 1
   then _ <- transition (Pulse.id p) [Pending] InProgress ;; ret tt
   else ret tt) ;;
  publish (HeartbeatReceived (Pulse.slug p)) ;;
  (if Nat.eqb count (expectedSlots (Pulse.playlistId p))
   then
     won <- transition (Pulse.id p) [InProgress] Completed ;;
     if won : bool
     then finalize (Pulse.id p) ;; publish (PulseCompleted (Pulse.slug p))
     else ret tt
   else ret tt) ;;
  ret Accepted.

(** Modelled from the spec: the Heartbeat Aggregator's
    [ingest(pulseId, slotId, payload)] (section 4.3), absent from the
    sources.  Look up the pulse; if terminal, reject (the result is
    recorded for audit); insert keyed by (pulseId, slotId), answering
    Duplicate when the key is taken; otherwise settle the accepted
    heartbeat. *)
Definition ingest (pulseId slotId : Z) (payload : string) : M IngestResult :=
  found <- gets (pulseById pulseId) ;;
  match found with
  | None => ret (RejectedHeartbeat PulseNotFound)
  | Some p =>
      h <- gets (delivered pulseId slotId payload) ;;
      if isTerminal (Pulse.status p)
      then recordForAudit h ;; ret (RejectedHeartbeat PulseTerminal)
      else
        inserted <- insertHeartbeat h ;;
        if inserted : bool then settle p else ret Duplicate
  end.

Definition stalled (now : Z) (p : Pulse.t) : bool :=
  negb (isTerminal (Pulse.status p)) &&
  Z.ltb completionTimeout (now - Pulse.createdAt p).

Fixpoint expire (ps : list Pulse.t) : M unit :=
  match ps with
  | [] => ret tt
  | p :: rest =>
      won <- transition (Pulse.id p) [Pending; InProgress] TimedOut ;;
      (if won : bool then publish (PulseTimedOut (Pulse.slug p)) else ret tt) ;;
      expire rest
  end.

(** Modelled from the spec: one sweep of the Reaper (section 4.6),
    absent from the sources: every pulse in Pending or InProgress that
    is older than the completion timeout is moved to TimedOut through
    [transition]. *)
Definition reap : M unit :=
  now <- gets clock ;;
  ps <- gets pulses ;;
  expire (filter (stalled now) ps).

(** *** Operation sequences *)

Inductive Op : Type :=
| CreatePulse (dto : PulsesDto.t)
| GetPulse (slug : string)
| TriggerPulse (dto : PulsesDto.t) (requester : User.t)
| Ingest (pulseId slotId : Z) (payload : string)
| Reap
| Tick (dt : Z).

Definition step (op : Op) (w : World) : World :=
  match op with
  | CreatePulse dto => snd (PulsesService.createPulse this dto w)
  | GetPulse slug => snd (PulsesService.getPulse slug w)
  | TriggerPulse dto requester => snd (PulsesService.triggerPulse this dto requester w)
  | Ingest pulseId slotId payload => snd (ingest pulseId slotId payload w)
  | Reap => snd (reap w)
  | Tick dt => set_clock (clock w + dt) w
  end.

Definition run (ops : list Op) (w : World) : World :=
  fold_left (fun w op => step op w) ops w.

Definition acceptedBy (pulseId slotId : Z) (op : Op) (w : World) : bool :=
  match op with
  | Ingest p s payload =>
      Z.eqb p pulseId && Z.eqb s slotId &&
      match fst (ingest p s payload w) with
      | Resolved Accepted => true
      | _ => false
      end
  | _ => false
  end.

(** Number of deliveries for (pulseId, slotId) answered Accepted along
    a run. *)
Fixpoint acceptedDeliveries (pulseId slotId : Z) (ops : list Op) (w : World) : nat :=
  match ops with
  | [] => 0
  | op :: rest =>
      ((if acceptedBy pulseId slotId op w then 1 else 0) +
       acceptedDeliveries pulseId slotId rest (step op w))%nat
  end.

End Components.
End Orchestration.

(** ** Concrete collaborators and worlds

    Used to run the definitions on explicit inputs. *)

Module Fixtures.

Definition stripPrefix (pre s : string) : string :=
  if String.prefix pre s
  then substring (String.length pre) (String.length s - String.length pre) s
  else s.

(** Modelled from the spec: [prependWWW] of [utils/pulses], absent from
    the sources: the scheme/www normalisation a URL goes through before
    it is resolved.  The scheme and a leading [www.] are dropped and
    [https://www.] is put in front. *)
Definition prependWWW_spec (url : string) : string :=
  "https://www." ++
  stripPrefix "www." (stripPrefix "http://" (stripPrefix "https://" url)).

Definition lambdaOk : InvokeCommand -> Outcome InvokeCommandOutput :=
  fun _ => Resolved {| StatusCode := 200; ResponsePayload := Some "{}" |}.

Definition lambdaDown : InvokeCommand -> Outcome InvokeCommandOutput :=
  fun _ => Rejected (ServiceException "ServiceUnavailableException").

Definition env : ProcessEnv :=
  {| ADHOC_TRIGGER_LAMBDA_ARN := Some "arn:aws:lambda:adhoc-trigger";
     IS_BETA := Some "true" |}.

(** A generator that never repeats itself. *)
Definition importsWith (lambda : InvokeCommand -> Outcome InvokeCommandOutput) : Imports :=
  {| nanoid := fun n => "slug-" ++ string_of_Z (Z.of_nat n);
     prependWWW := prependWWW_spec;
     lambdaClient := lambda;
     process_env := env |}.

(** A generator that yields the same identifier twice in a row. *)
Definition importsStuck : Imports :=
  {| nanoid := fun _ => "V1StGXR8_Z5jdHi6B-myT";
     prependWWW := prependWWW_spec;
     lambdaClient := lambdaOk;
     process_env := env |}.

Definition exampleUrl : Url.t :=
  {| Url.id := 10; Url.url := "https://www.example.com" |}.

Definition urlsSvc : UrlsService :=
  {| urlByFQDN := fun fqdn =>
       if String.eqb fqdn "https://www.example.com"
       then Resolved (Some exampleUrl)
       else Resolved None |}.

Definition alice : User.t :=
  {| User.id := 1;
     User.memberships := [Some {| Membership.id := 5 |}; Some {| Membership.id := 9 |}] |}.

Definition bob : User.t := {| User.id := 2; User.memberships := [] |}.

Definition usersSvc : UsersService :=
  {| findUser := fun id =>
       if Z.eqb id 1 then Resolved (Some alice)
       else if Z.eqb id 2 then Resolved (Some bob)
       else Resolved None |}.

Definition notificationsSvc : NotificationsService :=
  {| refreshPulsesTable := Resolved tt |}.

Definition serviceWith (model : PulseModel) : PulsesService.t :=
  {| PulsesService.pulse := model;
     PulsesService.urlsService := urlsSvc;
     PulsesService.notificationsService := notificationsSvc;
     PulsesService.usersService := usersSvc |}.

(** Modelled from the spec: the declaration of the [Pulse] model, absent
    from the sources: the slug is globally unique and a pulse starts as
    Pending. *)
Definition pulseModel_spec : PulseModel :=
  {| slugUnique := true; statusDefault := Pending |}.


Definition service : PulsesService.t := serviceWith pulseModel_spec.

Definition emptyWorld : World :=
  {| pulses := []; pulseSeq := 1; heartbeats := []; auditLog := [];
     finalized := []; urls := [exampleUrl]; targets := []; clock := 1000;
     nanoidCalls := 0; invocations := []; logger := []; broadcasts := [] |}.

Definition dto : PulsesDto.t :=
  {| PulsesDto.url := "example.com"; PulsesDto.playlistId := 3 |}.

Definition dtoWww : PulsesDto.t :=
  {| PulsesDto.url := "http://www.example.com"; PulsesDto.playlistId := 3 |}.

(** Every playlist expects one slot, or two. *)
Definition oneSlot : Z -> nat := fun _ => 1%nat.
Definition twoSlots : Z -> nat := fun _ => 2%nat.

Definition imports : Imports := importsWith lambdaOk.

Definition request : PulsesController.Request :=
  {| PulsesController.user := alice |}.

(** The world after one pulse has been created from the empty world. *)
Definition createdWorld : World :=
  snd (@PulsesService.createPulse imports service dto emptyWorld).

Definition firstPulse : Pulse.t :=
  {| Pulse.id := 1; Pulse.slug := "slug-0"; Pulse.urlId := 10;
     Pulse.targetId := None; Pulse.playlistId := 3; Pulse.status := Pending;
     Pulse.createdAt := 1000 |}.

(** The same, with the generator that repeats itself: the next draw
    collides with the slug of the stored pulse. *)
Definition collidingWorld : World :=
  snd (@PulsesService.createPulse importsStuck service dto emptyWorld).

(** A pulse expecting one slot, completed by the heartbeat of slot 7. *)
Definition completedWorld : World :=
  @Orchestration.run imports service oneSlot 60
    [Orchestration.CreatePulse dto; Orchestration.Ingest 1 7 "lcp=1200"]
    emptyWorld.

End Fixtures.

(** Modelled from the spec: the default of the [status] column in the
    declaration of the [Pulse] model ([models/pulse.model.ts], absent from
    the sources): a pulse is Pending at creation (data model and section
    4.2).  Whether the slug column carries a unique index is left open. *)
Definition PulseModel_declared (unique : bool) : PulseModel :=
  {| slugUnique := unique; statusDefault := Pending |}.

(** A pulses service over the declared model, with any collaborators. *)
Definition serviceOver (unique : bool) (urlsService : UrlsService)
           (notificationsService : NotificationsService)
           (usersService : UsersService) : PulsesService.t :=
  {| PulsesService.pulse := PulseModel_declared unique;
     PulsesService.urlsService := urlsService;
     PulsesService.notificationsService := notificationsService;
     PulsesService.usersService := usersService |}.

(** [Number.MAX_SAFE_INTEGER]: up to it a JavaScript number holds an
    integer exactly. *)
Definition MAX_SAFE_INTEGER : Z := 9007199254740991.

Module ListFixtures.

(** Rows [startRow] to [endRow], the end excluded; no bounds, no
    pagination. *)
Definition rowsBetween (startRow endRow : option Z) : PaginationParams :=
  match startRow, endRow with
  | Some a, Some b => {| offset := Some (Z.to_nat a); limit := Some (Z.to_nat (b - a)) |}
  | _, _ => {| offset := None; limit := None |}
  end.

(** The rows are left in table order. *)
#[export] Instance lists : Lists :=
  {| Order := unit;
     getPaginationParams := rowsBetween;
     getSortParams := fun _ => tt;
     orderBy := fun _ l => l;
     orderBy_permutes := fun _ l => Permutation_refl l |}.

Definition beat (pulseId slotId : Z) : Heartbeat.t :=
  {| Heartbeat.pulseId := pulseId; Heartbeat.slotId := slotId;
     Heartbeat.payload := "lcp=1200"; Heartbeat.receivedAt := 1001 |}.

Definition targeted (id : Z) (slug : string) (target createdAt : Z) : Pulse.t :=
  {| Pulse.id := id; Pulse.slug := slug; Pulse.urlId := 10;
     Pulse.targetId := Some target; Pulse.playlistId := 3;
     Pulse.status := Pending; Pulse.createdAt := createdAt |}.

(** Two pulses of target 4, the first with two heartbeats, and one pulse
    of target 5. *)
Definition listedWorld : World :=
  {| pulses := [targeted 1 "a" 4 1000; targeted 2 "b" 4 1500; targeted 3 "c" 5 1200];
     pulseSeq := 4; heartbeats := [beat 1 7; beat 1 8]; auditLog := [];
     finalized := []; urls := [Fixtures.exampleUrl]; targets := []; clock := 2000;
     nanoidCalls := 0; invocations := []; logger := []; broadcasts := [] |}.

(** A notifications service whose broadcast throws. *)
Definition serviceMuted : PulsesService.t :=
  {| PulsesService.pulse := Fixtures.pulseModel_spec;
     PulsesService.urlsService := Fixtures.urlsSvc;
     PulsesService.notificationsService :=
       {| refreshPulsesTable := Rejected (ServiceException "socket closed") |};
     PulsesService.usersService := Fixtures.usersSvc |}.

(** The page a listing has resolved with. *)
Definition pageOf (r : Outcome PulsesService.Page * World) : PulsesService.Page :=
  match fst r with
  | Resolved page => page
  | Rejected _ => {| PulsesService.rows := []; PulsesService.count := 0 |}
  end.

(** A request for a URL without a stored record. *)
Definition dtoUnknown : PulsesDto.t :=
  {| PulsesDto.url := "unknown.org"; PulsesDto.playlistId := 3 |}.

End ListFixtures.

(** * Properties *)

Local Open Scope async_scope.

Lemma NoDup_snoc {A} (l : list A) (x : A) :
  NoDup l -> ~ In x l -> NoDup (l ++ [x]).
Proof.
  intros Hl Hx. apply NoDup_app.
  - exact Hl.
  - constructor; [intros []|constructor].
  - intros a Ha [E|[]]. subst a. exact (Hx Ha).
Qed.

Ltac unfold_async :=
  unfold bind, ret, throw, await, try_catch, gets in *.

(** ** Frame reasoning

    A preorder on worlds that holds of every primitive holds of what is
    built from them. *)

Section Frames.
Context {R : World -> World -> Prop} `{!PreOrder R}.

Lemma respects_ret {A} (a : A) : respects R (ret a).
Proof. intros w. reflexivity. Qed.

Lemma respects_throw {A} (e : Exn) : respects R (@throw A e).
Proof. intros w. reflexivity. Qed.

Lemma respects_await {A} (o : Outcome A) : respects R (await o).
Proof. intros w. reflexivity. Qed.

Lemma respects_gets {A} (f : World -> A) : respects R (gets f).
Proof. intros w. reflexivity. Qed.

Lemma respects_bind {A B} (m : M A) (k : A -> M B) :
  respects R m -> (forall a, respects R (k a)) -> respects R (bind m k).
Proof.
  intros Hm Hk w. unfold bind.
  pose proof (Hm w) as H1. destruct (m w) as [[a|e] w']; simpl in *.
  - transitivity w'; [exact H1|apply Hk].
  - exact H1.
Qed.

Lemma respects_try_catch {A} (body : M A) (handler : Exn -> M A) :
  respects R body -> (forall e, respects R (handler e)) ->
  respects R (try_catch body handler).
Proof.
  intros Hb Hh w. unfold try_catch.
  pose proof (Hb w) as H1. destruct (body w) as [[a|e] w']; simpl in *.
  - exact H1.
  - transitivity w'; [exact H1|apply Hh].
Qed.
End Frames.

#[local] Instance sameHeartbeats_preorder : PreOrder sameHeartbeats.
Proof.
  split.
  - intros w. reflexivity.
  - intros w1 w2 w3 H1 H2. unfold sameHeartbeats in *. congruence.
Qed.

#[local] Instance samePulses_preorder : PreOrder samePulses.
Proof.
  split.
  - intros w. split; reflexivity.
  - intros w1 w2 w3 [H1 H1'] [H2 H2']. split; congruence.
Qed.

(** Composite computations are taken apart down to their primitives. *)
Ltac frame :=
  repeat first
    [ apply respects_ret | apply respects_throw | apply respects_await
    | apply respects_gets
    | apply respects_bind; [|intros ?]
    | apply respects_try_catch; [|intros ?]
    | match goal with
      | |- respects _ (match ?x with _ => _ end) => destruct x
      end ].

(** ** [triggerPulse] *)

Section TriggerPulse.
Context {imports : Imports}.
Variable this : PulsesService.t.

Lemma find_Boolean_first (holes rest : list (option Membership.t)) (m : Membership.t) :
  Forall (fun e => e = None) holes ->
  find PulsesService.Boolean (holes ++ Some m :: rest) = Some (Some m).
Proof.
  induction 1 as [|e holes He _ IH]; simpl.
  - reflexivity.
  - subst e. simpl. exact IH.
Qed.

Lemma triggerPulse_dispatch
      (dto : PulsesDto.t) (requester u : User.t) (m : Membership.t) (w : World) :
  findUser (PulsesService.usersService this) (User.id requester) = Resolved (Some u) ->
  find PulsesService.Boolean (User.memberships u) = Some (Some m) ->
  let command := PulsesService.invokeParams (PulsesDto.url dto) (Membership.id m) in
  PulsesService.triggerPulse this dto requester w =
  match lambdaClient command with
  | Resolved _ => (Resolved tt, set_invocations (invocations w ++ [command]) w)
  | Rejected e =>
      (Resolved tt,
       set_logger (logger w ++ [LogError "Error invoking lambda:" e])
                  (set_invocations (invocations w ++ [command]) w))
  end.
Proof.
  intros Hu Hm command.
  unfold PulsesService.triggerPulse, PulsesService.User_memberships_of,
    PulsesService.first_membership_id, PulsesService.lambdaClient_send,
    PulsesService.logger_error.
  unfold_async. rewrite Hu. cbn. rewrite Hm. cbn.
  fold command. destruct (lambdaClient command); reflexivity.
Qed.

(** C1: when the worker invocation fails, [triggerPulse] logs the
    failure and resolves normally: the rejection of the lambda client is
    caught, one error entry is written to the logger, and nothing else
    than the issued command and that entry changes in the world. *)
Theorem triggerPulse_absorbs_invocation_failure
        (dto : PulsesDto.t) (requester u : User.t) (m : Membership.t)
        (e : Exn) (w : World) :
  findUser (PulsesService.usersService this) (User.id requester) = Resolved (Some u) ->
  find PulsesService.Boolean (User.memberships u) = Some (Some m) ->
  lambdaClient (PulsesService.invokeParams (PulsesDto.url dto) (Membership.id m)) = Rejected e ->
  exists w',
    PulsesService.triggerPulse this dto requester w = (Resolved tt, w') /\
    logger w' = (logger w ++ [LogError "Error invoking lambda:" e])%list /\
    invocations w' =
      (invocations w ++ [PulsesService.invokeParams (PulsesDto.url dto) (Membership.id m)])%list /\
    pulses w' = pulses w /\ heartbeats w' = heartbeats w /\
    broadcasts w' = broadcasts w.
Proof.
  intros Hu Hm He.
  rewrite (triggerPulse_dispatch dto requester u m w Hu Hm). cbv zeta.
  rewrite He. eexists. split; [reflexivity|]. cbn. repeat split; reflexivity.
Qed.

(** C4: for a requester with at least one membership, the
    [membership_id] of the dispatched payload is the id of the first
    membership of the array, that is of the first entry that is a
    membership object ([find(Boolean)]); the target URL is the one of
    the request. *)
Theorem triggerPulse_payload_first_membership
        (dto : PulsesDto.t) (requester u : User.t)
        (holes rest : list (option Membership.t)) (m : Membership.t) (w : World) :
  findUser (PulsesService.usersService this) (User.id requester) = Resolved (Some u) ->
  User.memberships u = (holes ++ Some m :: rest)%list ->
  Forall (fun e => e = None) holes ->
  exists command,
    invocations (snd (PulsesService.triggerPulse this dto requester w)) =
      (invocations w ++ [command])%list /\
    Json_get "membership_id" (Payload command) = Some (JNumber (Membership.id m)) /\
    Json_get "url" (Payload command) = Some (JString (PulsesDto.url dto)).
Proof.
  intros Hu Hms Hholes.
  assert (Hm : find PulsesService.Boolean (User.memberships u) = Some (Some m))
    by (rewrite Hms; apply find_Boolean_first; exact Hholes).
  rewrite (triggerPulse_dispatch dto requester u m w Hu Hm). cbv zeta.
  exists (PulsesService.invokeParams (PulsesDto.url dto) (Membership.id m)).
  destruct (lambdaClient _); cbn; repeat split; reflexivity.
Qed.

(** C10: for a user without memberships the membership resolution
    throws before the lambda client is used: [triggerPulse] rejects with
    a TypeError, the rejection is not caught by the handler of the
    dispatch, and the world is left as it was (no invocation, no log
    entry). *)
Theorem triggerPulse_without_membership_rejects
        (dto : PulsesDto.t) (requester u : User.t) (w : World) :
  findUser (PulsesService.usersService this) (User.id requester) = Resolved (Some u) ->
  User.memberships u = [] ->
  PulsesService.triggerPulse this dto requester w =
    (Rejected (TypeError "Cannot read properties of undefined (reading 'id')"), w) /\
  invocations (snd (PulsesService.triggerPulse this dto requester w)) = invocations w /\
  logger (snd (PulsesService.triggerPulse this dto requester w)) = logger w.
Proof.
  intros Hu Hms.
  assert (H : PulsesService.triggerPulse this dto requester w =
              (Rejected (TypeError "Cannot read properties of undefined (reading 'id')"), w)).
  { unfold PulsesService.triggerPulse, PulsesService.User_memberships_of,
      PulsesService.first_membership_id.
    unfold_async. rewrite Hu. cbn. rewrite Hms. reflexivity. }
  rewrite H. repeat split; reflexivity.
Qed.

Lemma triggerPulse_samePulses (dto : PulsesDto.t) (requester : User.t) :
  respects samePulses (PulsesService.triggerPulse this dto requester).
Proof.
  unfold PulsesService.triggerPulse, PulsesService.User_memberships_of,
    PulsesService.first_membership_id.
  frame; intros w; split; reflexivity.
Qed.

Lemma triggerPulse_sameHeartbeats (dto : PulsesDto.t) (requester : User.t) :
  respects sameHeartbeats (PulsesService.triggerPulse this dto requester).
Proof.
  unfold PulsesService.triggerPulse, PulsesService.User_memberships_of,
    PulsesService.first_membership_id.
  frame; intros w; reflexivity.
Qed.

(** The route [POST /pulses] answers with what [triggerPulse] resolves
    to: it writes no pulse, draws no slug, and resolves with [undefined]
    when it resolves. *)
Lemma controller_createPulse_returns_no_pulse
        (dto : PulsesDto.t) (req : PulsesController.Request) (w : World) :
  let r := PulsesController.createPulse this dto req w in
  pulses (snd r) = pulses w /\
  nanoidCalls (snd r) = nanoidCalls w /\
  (fst r = Resolved tt \/ exists e, fst r = Rejected e).
Proof.
  cbv zeta. unfold PulsesController.createPulse.
  destruct (triggerPulse_samePulses dto (PulsesController.user req) w) as [Hp Hn].
  split; [exact Hp|]. split; [exact Hn|].
  destruct (fst _) as [[]|e]; [left; reflexivity|right; eexists; reflexivity].
Qed.

End TriggerPulse.

(** ** [createPulse] and [getPulse] *)

Section PulseStore.
Context {imports : Imports}.
Variable this : PulsesService.t.

Lemma slugTaken_false (slug : string) (w : World) :
  PulsesService.slugTaken slug w = false <-> ~ In slug (map Pulse.slug (pulses w)).
Proof.
  unfold PulsesService.slugTaken. induction (pulses w) as [|p ps IH]; simpl.
  - split; [intros _ []|reflexivity].
  - destruct (String.eqb_spec (Pulse.slug p) slug) as [E|NE]; simpl.
    + split; [discriminate|]. intros H. exfalso. apply H. left. exact E.
    + rewrite IH. split.
      * intros H [E|HIn]; [exact (NE E)|exact (H HIn)].
      * intros H HIn. apply H. right. exact HIn.
Qed.

(** [createPulse] run on a world, branch by branch. *)
Lemma createPulse_run (dto : PulsesDto.t) (w : World) :
  let slug := nanoid (nanoidCalls w) in
  let w1 := set_nanoidCalls (S (nanoidCalls w)) w in
  PulsesService.createPulse this dto w =
  match urlByFQDN (PulsesService.urlsService this) (prependWWW (PulsesDto.url dto)) with
  | Rejected e => (Rejected e, w)
  | Resolved None =>
      (Rejected (TypeError "Cannot read properties of null (reading 'id')"), w1)
  | Resolved (Some u) =>
      if slugUnique (PulsesService.pulse this) && PulsesService.slugTaken slug w
      then (Rejected (UniqueConstraintError "slug"), w1)
      else
        let row := PulsesService.Pulse_build this slug (Url.id u) (PulsesDto.playlistId dto) w in
        let w2 :=
          set_logger (logger w ++ [LogInfo ("Created pulse " ++ string_of_Z (Pulse.id row) ++
                                            " with slug " ++ slug)])
            (set_pulseSeq (pulseSeq w + 1) (set_pulses (pulses w ++ [row]) w1)) in
        match refreshPulsesTable (PulsesService.notificationsService this) with
        | Resolved _ =>
            (Resolved row, set_broadcasts (broadcasts w ++ [RefreshPulsesTable]) w2)
        | Rejected e => (Rejected e, w2)
        end
  end.
Proof.
  unfold PulsesService.createPulse, PulsesService.nanoid_call,
    PulsesService.Url_id_of, PulsesService.Pulse_create, PulsesService.logger_log,
    PulsesService.notify_refreshPulsesTable.
  unfold_async. cbv zeta.
  destruct (urlByFQDN _ _) as [[u|]|e]; try reflexivity.
  change (PulsesService.slugTaken (nanoid (nanoidCalls w))
            (set_nanoidCalls (S (nanoidCalls w)) w))
    with (PulsesService.slugTaken (nanoid (nanoidCalls w)) w).
  destruct (slugUnique _ && PulsesService.slugTaken _ w); try reflexivity.
  destruct (refreshPulsesTable _); reflexivity.
Qed.

(** The outcomes of [createPulse]: either nothing is written to the
    pulses table and the call rejects, or exactly the built row is
    appended. *)
Lemma createPulse_cases (dto : PulsesDto.t) (w : World) :
  let r := PulsesService.createPulse this dto w in
  let slug := nanoid (nanoidCalls w) in
  (pulses (snd r) = pulses w /\ (nanoidCalls (snd r) <= S (nanoidCalls w))%nat /\
   exists e, fst r = Rejected e) \/
  (exists u,
      urlByFQDN (PulsesService.urlsService this) (prependWWW (PulsesDto.url dto))
        = Resolved (Some u) /\
      slugUnique (PulsesService.pulse this) && PulsesService.slugTaken slug w = false /\
      let row := PulsesService.Pulse_build this slug (Url.id u) (PulsesDto.playlistId dto) w in
      pulses (snd r) = (pulses w ++ [row])%list /\
      nanoidCalls (snd r) = S (nanoidCalls w) /\
      match refreshPulsesTable (PulsesService.notificationsService this) with
      | Resolved _ => fst r = Resolved row
      | Rejected e => fst r = Rejected e
      end).
Proof.
  cbv zeta. rewrite createPulse_run. cbv zeta.
  destruct (urlByFQDN _ _) as [[u|]|e] eqn:Hurl.
  - destruct (slugUnique _ && PulsesService.slugTaken _ w) eqn:Htaken.
    + left. cbn. repeat split; [lia|]. eexists; reflexivity.
    + right. exists u. split; [reflexivity|]. split; [reflexivity|].
      destruct (refreshPulsesTable _); cbn [fst snd]; repeat split; reflexivity.
  - left. cbn. repeat split; [lia|]. eexists; reflexivity.
  - left. cbn. repeat split; [lia|]. eexists; reflexivity.
Qed.

(** When the canonical URL resolves to a record, the drawn slug is free
    (or the table has no unique index) and the broadcast goes through,
    [createPulse] resolves with the row it has inserted. *)
Lemma createPulse_resolves (dto : PulsesDto.t) (w : World) (u : Url.t) :
  urlByFQDN (PulsesService.urlsService this) (prependWWW (PulsesDto.url dto))
    = Resolved (Some u) ->
  slugUnique (PulsesService.pulse this) &&
    PulsesService.slugTaken (nanoid (nanoidCalls w)) w = false ->
  refreshPulsesTable (PulsesService.notificationsService this) = Resolved tt ->
  fst (PulsesService.createPulse this dto w) =
    Resolved (PulsesService.Pulse_build this (nanoid (nanoidCalls w)) (Url.id u)
                (PulsesDto.playlistId dto) w).
Proof.
  intros Hurl Hfree Hrefresh.
  rewrite createPulse_run. cbv zeta. rewrite Hurl, Hfree, Hrefresh. reflexivity.
Qed.


(** C5: [getPulse] never rejects and leaves the world alone; it resolves
    with a pulse of the table whose slug is the argument when there is
    one, and with [null] when no pulse has that slug. *)
Theorem getPulse_by_slug (slug : string) (w : World) :
  exists r,
    PulsesService.getPulse slug w = (Resolved r, w) /\
    match r with
    | Some found =>
        In (Pulse.row found) (pulses w) /\ Pulse.slug (Pulse.row found) = slug
    | None => forall p, In p (pulses w) -> Pulse.slug p <> slug
    end /\
    ((exists p, In p (pulses w) /\ Pulse.slug p = slug) -> r <> None) /\
    ((forall p, In p (pulses w) -> Pulse.slug p <> slug) -> r = None).
Proof.
  unfold PulsesService.getPulse, PulsesService.Pulse_findOne_by_slug.
  eexists. split; [reflexivity|].
  destruct (find (fun p => String.eqb (Pulse.slug p) slug) (pulses w)) as [p|] eqn:Hfind;
    simpl.
  - apply find_some in Hfind. destruct Hfind as [HIn Heq].
    apply String.eqb_eq in Heq.
    split; [split; assumption|]. split; [discriminate|].
    intros Hnone. exfalso. exact (Hnone p HIn Heq).
  - assert (Hnone : forall p, In p (pulses w) -> Pulse.slug p <> slug).
    { intros p HIn Heq.
      pose proof (find_none _ _ Hfind p HIn) as Hp. simpl in Hp.
      apply String.eqb_neq in Hp. exact (Hp Heq). }
    split; [exact Hnone|]. split; [|reflexivity].
    intros (p & HIn & Heq). exfalso. exact (Hnone p HIn Heq).
Qed.

(** C7: [createPulse] resolves the Url record from the canonicalised
    URL ([prependWWW] of the input).  For two inputs with the same
    canonical form the lookups coincide, every row written for either
    input references the record found for the canonical URL, and the
    call resolves with such a row when the record exists, the drawn slug
    is free and the broadcast goes through. *)
Theorem createPulse_references_canonical_url
        (dto1 dto2 : PulsesDto.t) (w1 w2 : World) :
  prependWWW (PulsesDto.url dto1) = prependWWW (PulsesDto.url dto2) ->
  let r1 := PulsesService.createPulse this dto1 w1 in
  let r2 := PulsesService.createPulse this dto2 w2 in
  (forall row1 row2,
     pulses (snd r1) = (pulses w1 ++ [row1])%list ->
     pulses (snd r2) = (pulses w2 ++ [row2])%list ->
     exists u,
       urlByFQDN (PulsesService.urlsService this) (prependWWW (PulsesDto.url dto1))
         = Resolved (Some u) /\
       Pulse.urlId row1 = Url.id u /\ Pulse.urlId row2 = Url.id u) /\
  (forall u,
     urlByFQDN (PulsesService.urlsService this) (prependWWW (PulsesDto.url dto1))
       = Resolved (Some u) ->
     refreshPulsesTable (PulsesService.notificationsService this) = Resolved tt ->
     slugUnique (PulsesService.pulse this) &&
       PulsesService.slugTaken (nanoid (nanoidCalls w1)) w1 = false ->
     slugUnique (PulsesService.pulse this) &&
       PulsesService.slugTaken (nanoid (nanoidCalls w2)) w2 = false ->
     exists p1 p2,
       fst r1 = Resolved p1 /\ fst r2 = Resolved p2 /\
       Pulse.urlId p1 = Url.id u /\ Pulse.urlId p2 = Url.id u /\
       In p1 (pulses (snd r1)) /\ In p2 (pulses (snd r2))).
Proof.
  intros Hcanon. cbv zeta. split.
  - intros row1 row2 H1 H2.
    destruct (createPulse_cases dto1 w1)
      as [(Hps1 & _)|(u1 & Hurl1 & _ & Hps1 & _)].
    { exfalso. rewrite Hps1 in H1.
      apply (f_equal (@List.length _)) in H1. rewrite length_app in H1.
      simpl in H1. lia. }
    destruct (createPulse_cases dto2 w2)
      as [(Hps2 & _)|(u2 & Hurl2 & _ & Hps2 & _)].
    { exfalso. rewrite Hps2 in H2.
      apply (f_equal (@List.length _)) in H2. rewrite length_app in H2.
      simpl in H2. lia. }
    rewrite <- Hcanon in Hurl2. rewrite Hurl1 in Hurl2. injection Hurl2 as <-.
    rewrite Hps1 in H1. apply app_inv_head in H1. injection H1 as <-.
    rewrite Hps2 in H2. apply app_inv_head in H2. injection H2 as <-.
    exists u1. repeat split. exact Hurl1.
  - intros u Hurl Hrefresh Hfree1 Hfree2.
    pose proof (createPulse_resolves dto1 w1 u Hurl Hfree1 Hrefresh) as E1.
    assert (Hurl2 : urlByFQDN (PulsesService.urlsService this)
                      (prependWWW (PulsesDto.url dto2)) = Resolved (Some u))
      by (rewrite <- Hcanon; exact Hurl).
    pose proof (createPulse_resolves dto2 w2 u Hurl2 Hfree2 Hrefresh) as E2.
    do 2 eexists. split; [exact E1|]. split; [exact E2|].
    split; [reflexivity|]. split; [reflexivity|].
    destruct (createPulse_cases dto1 w1)
      as [(_ & _ & e & He)|(u1 & Hurl1 & _ & Hps1 & _)]; cbv zeta in *;
      [rewrite He in E1; discriminate|].
    destruct (createPulse_cases dto2 w2)
      as [(_ & _ & e & He)|(u2 & Hurl2' & _ & Hps2 & _)]; cbv zeta in *;
      [rewrite He in E2; discriminate|].
    rewrite Hurl in Hurl1. injection Hurl1 as <-.
    rewrite Hurl2 in Hurl2'. injection Hurl2' as <-.
    rewrite Hps1, Hps2. split; apply in_or_app; right; left; reflexivity.
Qed.

End PulseStore.

Section DeclaredModel.
Context {imports : Imports}.

(** C6: over the declared [Pulse] model, [createPulse] persists its pulse
    by one insert.  Whenever the canonical URL resolves to a record and
    the drawn slug is accepted, exactly one complete row is appended to
    the pulses table: it is Pending (the code sets no status, the column
    default applies), carries the playlistId of the request and the id
    of the resolved Url record, and is the pulse the call resolves with
    when the broadcast returns.  In every other case the table is left
    exactly as it was: a row is written whole or not at all. *)
Theorem createPulse_persists_one_pending_row
        (unique : bool) (urlsService : UrlsService)
        (notificationsService : NotificationsService) (usersService : UsersService)
        (dto : PulsesDto.t) (w : World) :
  let svc := serviceOver unique urlsService notificationsService usersService in
  let r := PulsesService.createPulse svc dto w in
  (forall u,
     urlByFQDN urlsService (prependWWW (PulsesDto.url dto)) = Resolved (Some u) ->
     unique && PulsesService.slugTaken (nanoid (nanoidCalls w)) w = false ->
     exists row,
       pulses (snd r) = (pulses w ++ [row])%list /\
       Pulse.status row = Pending /\
       Pulse.playlistId row = PulsesDto.playlistId dto /\
       Pulse.urlId row = Url.id u /\
       Pulse.slug row = nanoid (nanoidCalls w) /\
       (refreshPulsesTable notificationsService = Resolved tt -> fst r = Resolved row)) /\
  (pulses (snd r) = pulses w \/
   exists row u,
     pulses (snd r) = (pulses w ++ [row])%list /\
     urlByFQDN urlsService (prependWWW (PulsesDto.url dto)) = Resolved (Some u) /\
     Pulse.status row = Pending /\
     Pulse.playlistId row = PulsesDto.playlistId dto /\
     Pulse.urlId row = Url.id u) /\
  ((forall u, urlByFQDN urlsService (prependWWW (PulsesDto.url dto))
              <> Resolved (Some u)) \/
   unique && PulsesService.slugTaken (nanoid (nanoidCalls w)) w = true ->
   pulses (snd r) = pulses w) /\
  (forall p, fst r = Resolved p ->
     pulses (snd r) = (pulses w ++ [p])%list /\
     Pulse.status p = Pending /\
     Pulse.playlistId p = PulsesDto.playlistId dto).
Proof.
  cbv zeta.
  set (svc := serviceOver unique urlsService notificationsService usersService).
  pose proof (createPulse_cases svc dto w) as Hcases. cbv zeta in Hcases.
  change (PulsesService.urlsService svc) with urlsService in Hcases.
  change (PulsesService.notificationsService svc) with notificationsService in Hcases.
  change (slugUnique (PulsesService.pulse svc)) with unique in Hcases.
  split; [|split; [|split]].
  - intros u Hurl Hfree.
    exists (PulsesService.Pulse_build svc (nanoid (nanoidCalls w)) (Url.id u)
              (PulsesDto.playlistId dto) w).
    clear Hcases. rewrite (createPulse_run svc dto w). cbv zeta.
    change (PulsesService.urlsService svc) with urlsService.
    change (PulsesService.notificationsService svc) with notificationsService.
    change (slugUnique (PulsesService.pulse svc)) with unique.
    rewrite Hurl, Hfree.
    destruct (refreshPulsesTable notificationsService) as [[]|e];
      cbn [fst snd]; repeat split; intros Hrefresh; discriminate.
  - destruct Hcases as [(Hps & _)|(u & Hurl & _ & Hps & _)].
    + left. exact Hps.
    + right. eexists. exists u. split; [exact Hps|]. split; [exact Hurl|].
      repeat split.
  - intros Hnot.
    destruct Hcases as [(Hps & _)|(u & Hurl & Hfree & _)]; [exact Hps|].
    exfalso. destruct Hnot as [Hnone|Htaken].
    + exact (Hnone u Hurl).
    + rewrite Htaken in Hfree. discriminate.
  - intros p Hp.
    destruct Hcases as [(_ & _ & e & He)|(u & _ & _ & Hps & _ & Hout)];
      [rewrite He in Hp; discriminate|].
    destruct (refreshPulsesTable _); rewrite Hout in Hp; [|discriminate].
    injection Hp as <-. repeat split. exact Hps.
Qed.

End DeclaredModel.

(** ** Orchestration: status transitions *)

Section StatusTransitions.
Import Orchestration.
Context {imports : Imports}.
Variable this : PulsesService.t.
Variable expectedSlots : Z -> nat.
Variable completionTimeout : Z.

Lemma withStatus_same (p : Pulse.t) : Pulse.withStatus p (Pulse.status p) = p.
Proof. destruct p; reflexivity. Qed.

Lemma advances_refl (p : Pulse.t) : advances p p.
Proof. split; [symmetry; apply withStatus_same|left; reflexivity]. Qed.

Lemma advances_trans (p q r : Pulse.t) :
  advances p q -> advances q r -> advances p r.
Proof.
  intros [Hq Sq] [Hr Sr]. split.
  - rewrite Hr at 1. rewrite Hq. reflexivity.
  - destruct Sq as [Sq|Sq], Sr as [Sr|Sr].
    + left. congruence.
    + right. rewrite <- Sq. exact Sr.
    + right. rewrite Sr. exact Sq.
    + right. lia.
Qed.

Lemma Forall2_advances_refl (ps : list Pulse.t) : Forall2 advances ps ps.
Proof. induction ps; constructor; [apply advances_refl|assumption]. Qed.

Lemma Forall2_advances_trans (ps qs rs : list Pulse.t) :
  Forall2 advances ps qs -> Forall2 advances qs rs -> Forall2 advances ps rs.
Proof.
  intros H. revert rs. induction H as [|p q ps qs Hpq _ IH]; intros rs Hqr.
  - inversion Hqr. constructor.
  - inversion Hqr as [|q' r qs' rs' Hq Hrest]; subst.
    constructor; [eapply advances_trans; eassumption|apply IH; assumption].
Qed.

Lemma evolves_refl (ps : list Pulse.t) : evolves ps ps.
Proof.
  exists ps, []. split; [symmetry; apply app_nil_r|apply Forall2_advances_refl].
Qed.

Lemma evolves_trans (ps qs rs : list Pulse.t) :
  evolves ps qs -> evolves qs rs -> evolves ps rs.
Proof.
  intros (qs1 & e1 & -> & H1) (rs1 & e2 & -> & H2).
  apply Forall2_app_inv_l in H2. destruct H2 as (ra & rb & Ha & Hb & ->).
  exists ra, (rb ++ e2)%list. split; [symmetry; apply app_assoc|].
  eapply Forall2_advances_trans; eassumption.
Qed.

Lemma evolves_snoc (ps : list Pulse.t) (row : Pulse.t) : evolves ps (ps ++ [row]).
Proof. exists ps, [row]. split; [reflexivity|apply Forall2_advances_refl]. Qed.

#[local] Instance pulsesEvolve_preorder : PreOrder pulsesEvolve.
Proof.
  split.
  - intros w. apply evolves_refl.
  - intros w1 w2 w3. apply evolves_trans.
Qed.

(** A transition whose source statuses all lie before its target is a
    forward move of every row it touches. *)
Lemma transition_evolves (pulseId : Z) (fromStatuses : list PulseStatus)
      (toStatus : PulseStatus) :
  Forall (fun s => (rank s < rank toStatus)%nat) fromStatuses ->
  respects pulsesEvolve (transition pulseId fromStatuses toStatus).
Proof.
  intros Hfrom w. unfold pulsesEvolve, transition. cbn [snd].
  change (pulses (set_pulses ?l w)) with l.
  eexists _, []. split; [symmetry; apply app_nil_r|].
  induction (pulses w) as [|p ps IH]; simpl; constructor; [|exact IH].
  destruct (Z.eqb (Pulse.id p) pulseId); simpl; [|apply advances_refl].
  destruct (existsb _ fromStatuses) eqn:Hex; [|apply advances_refl].
  apply existsb_exists in Hex. destruct Hex as (s & HIn & Heq).
  assert (s = Pulse.status p) by (destruct s, (Pulse.status p); simpl in Heq; congruence).
  subst s. split; [reflexivity|]. right. simpl.
  rewrite Forall_forall in Hfrom. exact (Hfrom _ HIn).
Qed.

Lemma respects_keeping_pulses {A} (m : M A) :
  (forall w, pulses (snd (m w)) = pulses w) -> respects pulsesEvolve m.
Proof. intros H w. unfold pulsesEvolve. rewrite H. apply evolves_refl. Qed.

Lemma insertHeartbeat_keeps_pulses (h : Heartbeat.t) (w : World) :
  pulses (snd (insertHeartbeat h w)) = pulses w.
Proof. unfold insertHeartbeat. destruct (existsb _ _); reflexivity. Qed.

Ltac forward_moves :=
  first
    [ apply transition_evolves; repeat constructor
    | apply respects_keeping_pulses; intros ?;
      first [apply insertHeartbeat_keeps_pulses|reflexivity] ].

Lemma settle_evolves (p : Pulse.t) : respects pulsesEvolve (settle expectedSlots p).
Proof. unfold settle. frame; forward_moves. Qed.

Lemma ingest_evolves (pulseId slotId : Z) (payload : string) :
  respects pulsesEvolve (ingest expectedSlots pulseId slotId payload).
Proof.
  unfold ingest. frame; try apply settle_evolves; forward_moves.
Qed.

Lemma expire_evolves (ps : list Pulse.t) : respects pulsesEvolve (expire ps).
Proof.
  induction ps as [|p ps IH]; simpl; frame; try exact IH; forward_moves.
Qed.

Lemma reap_evolves : respects pulsesEvolve (reap completionTimeout).
Proof. unfold reap. frame. apply expire_evolves. Qed.

Lemma createPulse_evolves (dto : PulsesDto.t) :
  respects pulsesEvolve (PulsesService.createPulse this dto).
Proof.
  intros w. unfold pulsesEvolve.
  destruct (createPulse_cases this dto w) as [(Hps & _)|(u & _ & _ & Hps & _)];
    rewrite Hps; [apply evolves_refl|apply evolves_snoc].
Qed.

Lemma step_evolves (op : Op) (w : World) :
  pulsesEvolve w (step this expectedSlots completionTimeout op w).
Proof.
  destruct op; simpl.
  - apply createPulse_evolves.
  - apply evolves_refl.
  - unfold pulsesEvolve.
    destruct (triggerPulse_samePulses this dto requester w) as [-> _].
    apply evolves_refl.
  - apply ingest_evolves.
  - apply reap_evolves.
  - apply evolves_refl.
Qed.

Lemma run_evolves (ops : list Op) (w : World) :
  pulsesEvolve w (run this expectedSlots completionTimeout ops w).
Proof.
  revert w. induction ops as [|op ops IH]; intros w; simpl.
  - apply evolves_refl.
  - eapply evolves_trans; [apply step_evolves|apply IH].
Qed.

Lemma evolves_nth (ps ps' : list Pulse.t) (i : nat) (p : Pulse.t) :
  evolves ps ps' -> nth_error ps i = Some p ->
  exists q, nth_error ps' i = Some q /\ advances p q.
Proof.
  intros (qs & extra & -> & H). revert i.
  induction H as [|a b ps qs Hab _ IH]; intros i Hi.
  - destruct i; discriminate.
  - destruct i as [|i]; simpl in *.
    + injection Hi as <-. exists b. split; [reflexivity|exact Hab].
    + apply IH. exact Hi.
Qed.

Lemma terminal_rank (s : PulseStatus) : isTerminal s = true -> rank s = 2%nat.
Proof. destruct s; simpl; congruence. Qed.

Lemma rank_le_2 (s : PulseStatus) : (rank s <= 2)%nat.
Proof. destruct s; simpl; lia. Qed.

(** C8: along every sequence of operations (creation, lookup, trigger,
    heartbeat ingestion, reaper sweep, passing of time) a pulse keeps
    its row, and its status either stays or moves forward along
    Pending, InProgress, terminal: it never goes back, and from a
    terminal status it never changes again. *)
Theorem status_moves_forward_only (ops : list Op) (w : World) (i : nat) (p : Pulse.t) :
  nth_error (pulses w) i = Some p ->
  exists q,
    nth_error (pulses (run this expectedSlots completionTimeout ops w)) i = Some q /\
    q = Pulse.withStatus p (Pulse.status q) /\
    (Pulse.status q = Pulse.status p \/
     (rank (Pulse.status p) < rank (Pulse.status q))%nat) /\
    (isTerminal (Pulse.status p) = true -> Pulse.status q = Pulse.status p).
Proof.
  intros Hp.
  destruct (evolves_nth _ _ i p (run_evolves ops w) Hp) as (q & Hq & Hsame & Hstatus).
  exists q. split; [exact Hq|]. split; [exact Hsame|]. split; [exact Hstatus|].
  intros Hterm. destruct Hstatus as [E|Hlt]; [exact E|].
  apply terminal_rank in Hterm. pose proof (rank_le_2 (Pulse.status q)). lia.
Qed.

End StatusTransitions.

(** ** Orchestration: heartbeats are counted once *)

Section HeartbeatsOnce.
Import Orchestration.
Context {imports : Imports}.
Variable this : PulsesService.t.
Variable expectedSlots : Z -> nat.
Variable completionTimeout : Z.

Lemma keyed_spec (pulseId slotId : Z) (h : Heartbeat.t) :
  keyed pulseId slotId h = true <-> hbKey h = (pulseId, slotId).
Proof.
  unfold keyed, hbKey. rewrite andb_true_iff, !Z.eqb_eq. split.
  - intros [-> ->]. reflexivity.
  - intros E. injection E as -> ->. split; reflexivity.
Qed.

Lemma key_taken_iff (pulseId slotId : Z) (hs : list Heartbeat.t) :
  existsb (keyed pulseId slotId) hs = true <-> In (pulseId, slotId) (map hbKey hs).
Proof.
  rewrite existsb_exists, in_map_iff. split.
  - intros (h & HIn & Hk). exists h. split; [apply keyed_spec; exact Hk|exact HIn].
  - intros (h & Hk & HIn). exists h. split; [exact HIn|apply keyed_spec; exact Hk].
Qed.

Lemma key_free_count (pulseId slotId : Z) (hs : list Heartbeat.t) :
  ~ In (pulseId, slotId) (map hbKey hs) -> filter (keyed pulseId slotId) hs = [].
Proof.
  induction hs as [|h hs IH]; simpl; intros Hfree; [reflexivity|].
  destruct (keyed pulseId slotId h) eqn:Hk.
  - exfalso. apply Hfree. left. apply keyed_spec. exact Hk.
  - apply IH. intros HIn. apply Hfree. right. exact HIn.
Qed.

Lemma unique_keys_count (pulseId slotId : Z) (hs : list Heartbeat.t) :
  NoDup (map hbKey hs) -> (List.length (filter (keyed pulseId slotId) hs) <= 1)%nat.
Proof.
  induction hs as [|h hs IH]; simpl; intros Hnd; [lia|].
  inversion Hnd as [|k ks Hnotin Hrest]; subst.
  destruct (keyed pulseId slotId h) eqn:Hk.
  - apply keyed_spec in Hk. rewrite Hk in Hnotin.
    rewrite (key_free_count _ _ _ Hnotin). simpl. lia.
  - apply IH. exact Hrest.
Qed.

Lemma settle_accepts (p : Pulse.t) (w : World) :
  fst (settle expectedSlots p w) = Resolved Accepted.
Proof.
  unfold settle, transition, publish, finalize. unfold_async.
  destruct (Nat.eqb _ 1); cbn [fst snd];
    destruct (Nat.eqb _ (expectedSlots _)); cbn [fst snd]; try reflexivity;
    destruct (existsb _ _); reflexivity.
Qed.

Lemma settle_sameHeartbeats (p : Pulse.t) :
  respects sameHeartbeats (settle expectedSlots p).
Proof. unfold settle. frame; intros w; reflexivity. Qed.

(** [ingest] run on a world, branch by branch. *)
Lemma ingest_run (pulseId slotId : Z) (payload : string) (w : World) :
  let r := ingest expectedSlots pulseId slotId payload w in
  match pulseById pulseId w with
  | None => r = (Resolved (RejectedHeartbeat PulseNotFound), w)
  | Some p =>
      if isTerminal (Pulse.status p)
      then r = (Resolved (RejectedHeartbeat PulseTerminal),
                set_auditLog (auditLog w ++ [delivered pulseId slotId payload w]) w)
      else if existsb (keyed pulseId slotId) (heartbeats w)
           then r = (Resolved Duplicate, w)
           else fst r = Resolved Accepted /\
                heartbeats (snd r) =
                  (heartbeats w ++ [delivered pulseId slotId payload w])%list
  end.
Proof.
  cbv zeta. unfold ingest, insertHeartbeat, recordForAudit.
  unfold_async.
  destruct (pulseById pulseId w) as [p|]; [|reflexivity].
  destruct (isTerminal (Pulse.status p)); [reflexivity|].
  change (Heartbeat.pulseId (delivered pulseId slotId payload w)) with pulseId.
  change (Heartbeat.slotId (delivered pulseId slotId payload w)) with slotId.
  destruct (existsb (keyed pulseId slotId) (heartbeats w)); [reflexivity|].
  split; [apply settle_accepts|].
  rewrite (settle_sameHeartbeats p _). reflexivity.
Qed.

Lemma createPulse_sameHeartbeats (dto : PulsesDto.t) :
  respects sameHeartbeats (PulsesService.createPulse this dto).
Proof.
  unfold PulsesService.createPulse, PulsesService.Url_id_of.
  frame; intros w; try reflexivity.
  unfold PulsesService.Pulse_create, sameHeartbeats.
  destruct (_ && _); reflexivity.
  unfold PulsesService.notify_refreshPulsesTable, sameHeartbeats.
  destruct (refreshPulsesTable _); reflexivity.
Qed.

Lemma expire_sameHeartbeats (ps : list Pulse.t) : respects sameHeartbeats (expire ps).
Proof.
  induction ps as [|p ps IH]; simpl; frame; try exact IH; intros w; reflexivity.
Qed.

(** What an operation does to the heartbeats table: an accepted
    delivery appends its heartbeat under a key that was free, for a
    pulse that exists; anything else leaves the table as it was. *)
Lemma step_heartbeats (op : Op) (w : World) :
  (exists pulseId slotId payload,
      op = Ingest pulseId slotId payload /\
      fst (ingest expectedSlots pulseId slotId payload w) = Resolved Accepted /\
      existsb (keyed pulseId slotId) (heartbeats w) = false /\
      pulseById pulseId w <> None /\
      heartbeats (step this expectedSlots completionTimeout op w) =
        (heartbeats w ++ [delivered pulseId slotId payload w])%list) \/
  (heartbeats (step this expectedSlots completionTimeout op w) = heartbeats w /\
   forall pulseId slotId, acceptedBy expectedSlots pulseId slotId op w = false).
Proof.
  destruct op as [dto|slug|dto requester|pulseId slotId payload| |dt]; simpl.
  - right. split; [apply createPulse_sameHeartbeats|reflexivity].
  - right. split; reflexivity.
  - right. split; [apply triggerPulse_sameHeartbeats|reflexivity].
  - pose proof (ingest_run pulseId slotId payload w) as H. cbv zeta in H.
    destruct (pulseById pulseId w) as [p|] eqn:Hp.
    + destruct (isTerminal (Pulse.status p)).
      * right. rewrite H. split; [reflexivity|].
        intros. apply andb_false_r.
      * destruct (existsb (keyed pulseId slotId) (heartbeats w)) eqn:Hk.
        -- right. rewrite H. split; [reflexivity|]. intros. apply andb_false_r.
        -- left. exists pulseId, slotId, payload. destruct H as [Hacc Hhs].
           repeat split; try assumption. rewrite Hp. discriminate.
    + right. rewrite H. split; [reflexivity|]. intros. apply andb_false_r.
  - right. split; [|reflexivity]. unfold reap.
    assert (H : respects sameHeartbeats (reap completionTimeout)).
    { unfold reap. frame. apply expire_sameHeartbeats. }
    apply H.
  - right. split; reflexivity.
Qed.

Lemma step_keysUnique (op : Op) (w : World) :
  keysUnique w -> keysUnique (step this expectedSlots completionTimeout op w).
Proof.
  unfold keysUnique. intros Hnd.
  destruct (step_heartbeats op w)
    as [(pulseId & slotId & payload & _ & _ & Hfree & _ & ->)|[-> _]];
    [|exact Hnd].
  rewrite map_app. simpl. apply NoDup_snoc; [exact Hnd|].
  intros HIn. apply key_taken_iff in HIn. unfold hbKey in HIn. simpl in HIn.
  congruence.
Qed.

Lemma step_count (pulseId slotId : Z) (op : Op) (w : World) :
  acceptedFor pulseId slotId (step this expectedSlots completionTimeout op w) =
  (acceptedFor pulseId slotId w +
   if acceptedBy expectedSlots pulseId slotId op w then 1 else 0)%nat.
Proof.
  unfold acceptedFor.
  destruct (step_heartbeats op w)
    as [(p & s & payload & -> & Hacc & _ & _ & ->)|[-> Hno]].
  - rewrite filter_app, length_app. f_equal.
    unfold acceptedBy. rewrite Hacc. simpl. unfold keyed. simpl.
    rewrite andb_true_r. destruct (_ && _); reflexivity.
  - rewrite Hno. lia.
Qed.

Lemma pulseById_evolves (pulseId : Z) (w w' : World) :
  pulsesEvolve w w' -> pulseById pulseId w <> None -> pulseById pulseId w' <> None.
Proof.
  unfold pulseById. intros Hev Hfound.
  destruct (find _ (pulses w)) as [p|] eqn:Hp; [|congruence].
  apply find_some in Hp. destruct Hp as [HIn Hid].
  apply In_nth_error in HIn. destruct HIn as [i Hi].
  destruct (evolves_nth _ _ i p Hev Hi) as (q & Hq & Hsame & _).
  apply nth_error_In in Hq.
  intros Hnone. pose proof (find_none _ _ Hnone q Hq) as Hno. simpl in Hno.
  rewrite Hsame in Hno. simpl in Hno. congruence.
Qed.

Lemma step_owned (op : Op) (w : World) : owned w -> owned (step this expectedSlots completionTimeout op w).
Proof.
  intros Hown h HIn.
  apply (pulseById_evolves _ w); [apply step_evolves|].
  destruct (step_heartbeats op w)
    as [(pulseId & slotId & payload & _ & _ & _ & Hp & Hhs)|[Hhs _]];
    rewrite Hhs in HIn.
  - apply in_app_or in HIn. destruct HIn as [HIn|[<-|[]]];
      [apply Hown; exact HIn|exact Hp].
  - apply Hown. exact HIn.
Qed.

Lemma run_invariants (ops : list Op) (w : World) :
  keysUnique w -> owned w -> keysUnique (run this expectedSlots completionTimeout ops w) /\ owned (run this expectedSlots completionTimeout ops w).
Proof.
  revert w. induction ops as [|op ops IH]; intros w Hk Ho; simpl.
  - split; assumption.
  - apply IH; [apply step_keysUnique|apply step_owned]; assumption.
Qed.

Lemma run_count (pulseId slotId : Z) (ops : list Op) (w : World) :
  acceptedFor pulseId slotId (run this expectedSlots completionTimeout ops w) =
  (acceptedFor pulseId slotId w +
   acceptedDeliveries this expectedSlots completionTimeout pulseId slotId ops w)%nat.
Proof.
  revert w. induction ops as [|op ops IH]; intros w; simpl.
  - lia.
  - rewrite IH, step_count. lia.
Qed.

(** A delivery for a key that is already stored: Duplicate while the
    pulse is open, a terminal rejection once it is closed; the tables
    are left as they were. *)
Lemma redelivery (pulseId slotId : Z) (payload : string) (w : World) :
  owned w ->
  existsb (keyed pulseId slotId) (heartbeats w) = true ->
  exists p,
    pulseById pulseId w = Some p /\
    fst (ingest expectedSlots pulseId slotId payload w) =
      Resolved (if isTerminal (Pulse.status p)
                then RejectedHeartbeat PulseTerminal else Duplicate) /\
    heartbeats (snd (ingest expectedSlots pulseId slotId payload w)) = heartbeats w /\
    pulses (snd (ingest expectedSlots pulseId slotId payload w)) = pulses w.
Proof.
  intros Hown Hk.
  apply existsb_exists in Hk. destruct Hk as (h & HIn & Hkey).
  pose proof (Hown h HIn) as Hp.
  assert (Hh : Heartbeat.pulseId h = pulseId).
  { apply keyed_spec in Hkey. unfold hbKey in Hkey. congruence. }
  rewrite Hh in Hp.
  pose proof (ingest_run pulseId slotId payload w) as H. cbv zeta in H.
  destruct (pulseById pulseId w) as [p|]; [|congruence].
  exists p. split; [reflexivity|].
  destruct (isTerminal (Pulse.status p)).
  - rewrite H. repeat split.
  - assert (Hex : existsb (keyed pulseId slotId) (heartbeats w) = true)
      by (apply existsb_exists; exists h; split; assumption).
    rewrite Hex in H. rewrite H. repeat split.
Qed.

Lemma counted_key_taken (pulseId slotId : Z) (w : World) :
  acceptedFor pulseId slotId w = 1%nat ->
  existsb (keyed pulseId slotId) (heartbeats w) = true.
Proof.
  unfold acceptedFor. intros Hone.
  destruct (existsb (keyed pulseId slotId) (heartbeats w)) eqn:Hk; [reflexivity|].
  assert (Hfree : ~ In (pulseId, slotId) (map hbKey (heartbeats w))).
  { intros HIn. apply key_taken_iff in HIn. congruence. }
  rewrite (key_free_count _ _ _ Hfree) in Hone. discriminate.
Qed.

(** C9, as amended: along every sequence of operations starting from a
    world whose heartbeat keys are unique, at most one heartbeat per
    (pulseId, slotId) is stored and counted, and at most one delivery
    for the pair is answered Accepted.  Once a heartbeat is stored for
    the pair, a further delivery is answered Duplicate while the pulse
    is not terminal and rejected as PulseTerminal once it is; in both
    cases the accepted count and the pulses stay as they were. *)
Theorem heartbeat_counted_at_most_once
        (ops : list Op) (w : World) (pulseId slotId : Z) :
  keysUnique w -> owned w ->
  let w' := run this expectedSlots completionTimeout ops w in
  (acceptedFor pulseId slotId w' <= 1)%nat /\
  acceptedFor pulseId slotId w' =
    (acceptedFor pulseId slotId w +
     acceptedDeliveries this expectedSlots completionTimeout pulseId slotId ops w)%nat /\
  (forall payload,
     acceptedFor pulseId slotId w' = 1%nat ->
     exists p,
       pulseById pulseId w' = Some p /\
       fst (ingest expectedSlots pulseId slotId payload w') =
         Resolved (if isTerminal (Pulse.status p)
                   then RejectedHeartbeat PulseTerminal else Duplicate) /\
       acceptedFor pulseId slotId (snd (ingest expectedSlots pulseId slotId payload w')) = 1%nat /\
       pulses (snd (ingest expectedSlots pulseId slotId payload w')) = pulses w').
Proof.
  intros Hk Ho. cbv zeta.
  destruct (run_invariants ops w Hk Ho) as [Hk' Ho'].
  split; [apply unique_keys_count; exact Hk'|].
  split; [apply run_count|].
  intros payload Hone.
  destruct (redelivery pulseId slotId payload _ Ho' (counted_key_taken _ _ _ Hone))
    as (p & Hp & Hres & Hhs & Hps).
  exists p. split; [exact Hp|]. split; [exact Hres|]. split; [|exact Hps].
  unfold acceptedFor in *. rewrite Hhs. exact Hone.
Qed.

End HeartbeatsOnce.

(** ** Further properties of [triggerPulse] *)

#[local] Instance sameAssociations_preorder : PreOrder sameAssociations.
Proof.
  split.
  - intros w. repeat split.
  - intros w1 w2 w3 (H1 & H2 & H3) (H4 & H5 & H6). repeat split; congruence.
Qed.

Section TriggerPulseRuns.
Context {imports : Imports}.
Variable this : PulsesService.t.

(** [triggerPulse] run on a world, branch by branch. *)
Lemma triggerPulse_run (dto : PulsesDto.t) (requester : User.t) (w : World) :
  PulsesService.triggerPulse this dto requester w =
  match findUser (PulsesService.usersService this) (User.id requester) with
  | Rejected e => (Rejected e, w)
  | Resolved None =>
      (Rejected (TypeError "Cannot read properties of null (reading 'memberships')"), w)
  | Resolved (Some u) =>
      match find PulsesService.Boolean (User.memberships u) with
      | Some (Some m) =>
          let command := PulsesService.invokeParams (PulsesDto.url dto) (Membership.id m) in
          match lambdaClient command with
          | Resolved _ => (Resolved tt, set_invocations (invocations w ++ [command]) w)
          | Rejected e =>
              (Resolved tt,
               set_logger (logger w ++ [LogError "Error invoking lambda:" e])
                          (set_invocations (invocations w ++ [command]) w))
          end
      | _ => (Rejected (TypeError "Cannot read properties of undefined (reading 'id')"), w)
      end
  end.
Proof.
  destruct (findUser (PulsesService.usersService this) (User.id requester))
    as [[u|]|e] eqn:Hu.
  - destruct (find PulsesService.Boolean (User.memberships u)) as [[m|]|] eqn:Hm.
    + exact (triggerPulse_dispatch this dto requester u m w Hu Hm).
    + unfold PulsesService.triggerPulse, PulsesService.User_memberships_of,
        PulsesService.first_membership_id.
      unfold_async. rewrite Hu. cbn. rewrite Hm. reflexivity.
    + unfold PulsesService.triggerPulse, PulsesService.User_memberships_of,
        PulsesService.first_membership_id.
      unfold_async. rewrite Hu. cbn. rewrite Hm. reflexivity.
  - unfold PulsesService.triggerPulse, PulsesService.User_memberships_of.
    unfold_async. rewrite Hu. reflexivity.
  - unfold PulsesService.triggerPulse. unfold_async. rewrite Hu. reflexivity.
Qed.

(** X1: [triggerPulse] resolves exactly when the requester is found and
    has a membership; the outcome of the worker plays no part.  When it
    rejects (lookup failure, unknown user, no membership) the world is
    left untouched: nothing was dispatched and nothing logged. *)
Theorem triggerPulse_resolves_iff (dto : PulsesDto.t) (requester : User.t) (w : World) :
  (fst (PulsesService.triggerPulse this dto requester w) = Resolved tt <->
   exists u m,
     findUser (PulsesService.usersService this) (User.id requester) = Resolved (Some u) /\
     find PulsesService.Boolean (User.memberships u) = Some (Some m)) /\
  (forall e, fst (PulsesService.triggerPulse this dto requester w) = Rejected e ->
             snd (PulsesService.triggerPulse this dto requester w) = w).
Proof.
  rewrite triggerPulse_run.
  destruct (findUser _ _) as [[u|]|e0].
  - destruct (find _ (User.memberships u)) as [[m|]|] eqn:Hm; cbv zeta.
    + split.
      * split; [intros _; exists u, m; split; [reflexivity|exact Hm]|].
        intros _. destruct (lambdaClient _); reflexivity.
      * intros e. destruct (lambdaClient _); discriminate.
    + split; [|reflexivity].
      split; [discriminate|]. intros (u' & m' & Hu & Hm').
      injection Hu as <-. rewrite Hm in Hm'. discriminate.
    + split; [|reflexivity].
      split; [discriminate|]. intros (u' & m' & Hu & Hm').
      injection Hu as <-. rewrite Hm in Hm'. discriminate.
  - split; [|reflexivity].
    split; [discriminate|]. intros (u' & m' & Hu & _). discriminate.
  - split; [|reflexivity].
    split; [discriminate|]. intros (u' & m' & Hu & _). discriminate.
Qed.

(** X2: a call to [triggerPulse] issues at most one command.  The command
    names the function of [ADHOC_TRIGGER_LAMBDA_ARN], carries the URL of
    the request and the flag [isBeta], true exactly when [IS_BETA] is the
    text [true]; an error is logged only for a rejected send, and no
    other part of the world changes. *)
Theorem triggerPulse_dispatches_at_most_once
        (dto : PulsesDto.t) (requester : User.t) (w : World) :
  let w' := snd (PulsesService.triggerPulse this dto requester w) in
  (w' = w \/
   exists command,
     invocations w' = (invocations w ++ [command])%list /\
     FunctionName command = ADHOC_TRIGGER_LAMBDA_ARN process_env /\
     Json_get "url" (Payload command) = Some (JString (PulsesDto.url dto)) /\
     Json_get "isBeta" (Payload command) =
       Some (JBool (match IS_BETA process_env with
                    | Some v => String.eqb v "true"
                    | None => false
                    end)) /\
     match lambdaClient command with
     | Resolved _ => logger w' = logger w
     | Rejected e => logger w' = (logger w ++ [LogError "Error invoking lambda:" e])%list
     end) /\
  pulses w' = pulses w /\ heartbeats w' = heartbeats w /\
  broadcasts w' = broadcasts w /\ nanoidCalls w' = nanoidCalls w.
Proof.
  cbv zeta. rewrite triggerPulse_run.
  destruct (findUser _ _) as [[u|]|e0];
    try (split; [left; reflexivity|repeat split; reflexivity]).
  destruct (find _ _) as [[m|]|];
    try (split; [left; reflexivity|repeat split; reflexivity]).
  cbv zeta. split.
  - right. exists (PulsesService.invokeParams (PulsesDto.url dto) (Membership.id m)).
    destruct (lambdaClient _) eqn:Hl; cbn [snd]; repeat split; reflexivity.
  - destruct (lambdaClient _); repeat split; reflexivity.
Qed.

(** X3: of the request, [triggerPulse] reads the URL and the id of the
    requester only: the playlist of the request is not forwarded, and the
    memberships come from the looked-up user, not from the user object
    of the request. *)
Theorem triggerPulse_reads_url_and_requester_id
        (dto dto' : PulsesDto.t) (requester requester' : User.t) (w : World) :
  PulsesDto.url dto = PulsesDto.url dto' ->
  User.id requester = User.id requester' ->
  PulsesService.triggerPulse this dto requester w =
  PulsesService.triggerPulse this dto' requester' w.
Proof.
  intros Hurl Hid. rewrite !triggerPulse_run, Hurl, Hid. reflexivity.
Qed.

End TriggerPulseRuns.

(** ** Further properties of [createPulse] and [getPulse] *)

Lemma find_snoc_found {A} (f : A -> bool) (l : list A) (x y : A) :
  find f l = Some y -> find f (l ++ [x]) = Some y.
Proof.
  induction l as [|a l IH]; simpl; [discriminate|].
  destruct (f a); [trivial|exact IH].
Qed.

Lemma find_snoc_fresh {A} (f : A -> bool) (l : list A) (x : A) :
  existsb f l = false -> f x = true -> find f (l ++ [x]) = Some x.
Proof.
  induction l as [|a l IH]; simpl; intros Hl Hx.
  - rewrite Hx. reflexivity.
  - destruct (f a); [discriminate|]. apply IH; assumption.
Qed.

Lemma NoDup_map_injective_on {A B} (f : A -> B) (l : list A) (a b : A) :
  NoDup (map f l) -> In a l -> In b l -> f a = f b -> a = b.
Proof.
  induction l as [|x l IH]; simpl; intros Hnd Ha Hb Hab; [contradiction|].
  inversion Hnd as [|y ys Hnotin Hrest]; subst.
  destruct Ha as [<-|Ha], Hb as [<-|Hb].
  - reflexivity.
  - exfalso. apply Hnotin. rewrite Hab. apply in_map. exact Hb.
  - exfalso. apply Hnotin. rewrite <- Hab. apply in_map. exact Ha.
  - apply IH; assumption.
Qed.

Section PulseStoreRuns.
Context {imports : Imports}.
Variable this : PulsesService.t.

Lemma createPulse_sameAssociations (dto : PulsesDto.t) :
  respects sameAssociations (PulsesService.createPulse this dto).
Proof.
  unfold PulsesService.createPulse, PulsesService.Url_id_of.
  frame; intros w; try (repeat split; reflexivity).
  - unfold PulsesService.Pulse_create. destruct (_ && _); repeat split; reflexivity.
  - unfold PulsesService.notify_refreshPulsesTable.
    destruct (refreshPulsesTable _); repeat split; reflexivity.
Qed.

Lemma Pulse_include_sameAssociations (w w' : World) (p : Pulse.t) :
  sameAssociations w w' ->
  PulsesService.Pulse_include w' p = PulsesService.Pulse_include w p.
Proof.
  intros (Hh & Hu & Ht). unfold PulsesService.Pulse_include.
  rewrite Hh, Hu, Ht. reflexivity.
Qed.

(** X4: insert then look up.  When [createPulse] resolves with a pulse
    and its slug was carried by no earlier pulse (which the unique index
    guarantees), [getPulse] on that slug resolves with that very pulse. *)
Theorem getPulse_after_createPulse (dto : PulsesDto.t) (w : World) (p : Pulse.t) :
  fst (PulsesService.createPulse this dto w) = Resolved p ->
  slugUnique (PulsesService.pulse this) = true \/
    PulsesService.slugTaken (Pulse.slug p) w = false ->
  exists found,
    fst (PulsesService.getPulse (Pulse.slug p) (snd (PulsesService.createPulse this dto w)))
      = Resolved (Some found) /\
    Pulse.row found = p.
Proof.
  intros Hp Hfree.
  destruct (createPulse_cases this dto w)
    as [(_ & _ & e & He)|(u & _ & Htaken & Hps & _ & Hout)];
    [rewrite He in Hp; discriminate|].
  destruct (refreshPulsesTable _); rewrite Hout in Hp; [|discriminate].
  injection Hp as <-.
  assert (Hnot : PulsesService.slugTaken (nanoid (nanoidCalls w)) w = false).
  { destruct Hfree as [Hu|Hf]; [|exact Hf]. rewrite Hu in Htaken. exact Htaken. }
  unfold PulsesService.getPulse, PulsesService.Pulse_findOne_by_slug. cbn [fst].
  rewrite Hps. rewrite (find_snoc_fresh _ _ _ Hnot).
  - eexists. split; reflexivity.
  - apply String.eqb_refl.
Qed.

(** X5: [createPulse] never changes what [getPulse] answers for a slug
    that is already stored, whatever its own outcome: the same row with
    the same associations is found afterwards. *)
Theorem createPulse_keeps_stored_pulses
        (dto : PulsesDto.t) (w : World) (slug : string) (found : Pulse.loaded) :
  fst (PulsesService.getPulse slug w) = Resolved (Some found) ->
  fst (PulsesService.getPulse slug (snd (PulsesService.createPulse this dto w)))
    = Resolved (Some found).
Proof.
  unfold PulsesService.getPulse, PulsesService.Pulse_findOne_by_slug. cbn [fst].
  intros Hfound.
  destruct (find (fun p => String.eqb (Pulse.slug p) slug) (pulses w)) as [q|] eqn:Hq;
    [|discriminate].
  simpl in Hfound. injection Hfound as <-.
  pose proof (createPulse_sameAssociations dto w) as Hsame.
  destruct (createPulse_cases this dto w) as [(Hps & _)|(u & _ & _ & Hps & _)];
    rewrite Hps.
  - rewrite Hq. simpl. rewrite (Pulse_include_sameAssociations _ _ q Hsame). reflexivity.
  - rewrite (find_snoc_found _ _ _ _ Hq). simpl.
    rewrite (Pulse_include_sameAssociations _ _ q Hsame). reflexivity.
Qed.

(** X6: when the URL of the request cannot be resolved, [createPulse]
    rejects and writes nothing: no pulse, no log entry, no broadcast.  A
    lookup that rejects leaves the world untouched; a lookup that finds
    no record costs one draw of the slug generator. *)
Theorem createPulse_unresolved_url_writes_nothing (dto : PulsesDto.t) (w : World) :
  (forall u, urlByFQDN (PulsesService.urlsService this) (prependWWW (PulsesDto.url dto))
             <> Resolved (Some u)) ->
  let r := PulsesService.createPulse this dto w in
  (exists e, fst r = Rejected e) /\
  pulses (snd r) = pulses w /\ logger (snd r) = logger w /\
  broadcasts (snd r) = broadcasts w /\
  match urlByFQDN (PulsesService.urlsService this) (prependWWW (PulsesDto.url dto)) with
  | Rejected e => r = (Rejected e, w)
  | Resolved _ => nanoidCalls (snd r) = S (nanoidCalls w)
  end.
Proof.
  intros Hnone. cbv zeta. rewrite createPulse_run. cbv zeta.
  destruct (urlByFQDN _ _) as [[u|]|e].
  - exfalso. exact (Hnone u eq_refl).
  - cbn. repeat split. eexists; reflexivity.
  - cbn. repeat split. eexists; reflexivity.
Qed.

(** X7: the broadcast comes after the insert and is not guarded.  If
    [refreshPulsesTable] throws, [createPulse] rejects with that error
    although the pulse has been written and logged: a rejected call does
    not mean that nothing was persisted. *)
Theorem createPulse_rejected_broadcast_keeps_row
        (dto : PulsesDto.t) (w : World) (u : Url.t) (e : Exn) :
  urlByFQDN (PulsesService.urlsService this) (prependWWW (PulsesDto.url dto))
    = Resolved (Some u) ->
  slugUnique (PulsesService.pulse this) &&
    PulsesService.slugTaken (nanoid (nanoidCalls w)) w = false ->
  refreshPulsesTable (PulsesService.notificationsService this) = Rejected e ->
  let r := PulsesService.createPulse this dto w in
  let row := PulsesService.Pulse_build this (nanoid (nanoidCalls w)) (Url.id u)
               (PulsesDto.playlistId dto) w in
  fst r = Rejected e /\
  pulses (snd r) = (pulses w ++ [row])%list /\
  logger (snd r) =
    (logger w ++ [LogInfo ("Created pulse " ++ string_of_Z (pulseSeq w) ++
                           " with slug " ++ nanoid (nanoidCalls w))])%list /\
  broadcasts (snd r) = broadcasts w.
Proof.
  intros Hurl Hfree Hrefresh. cbv zeta.
  rewrite createPulse_run. cbv zeta. rewrite Hurl, Hfree, Hrefresh.
  repeat split.
Qed.

(** X8: what a resolved [createPulse] has done besides the insert: one
    log entry naming the id and the slug, one request to refresh the
    pulses table, no command to the worker.  The pulse takes the time of
    the call and belongs to no target; its id is the next id of the
    table, that id being within the integers a JavaScript number holds
    exactly. *)
Theorem createPulse_resolved_effects (dto : PulsesDto.t) (w : World) (p : Pulse.t) :
  0 <= pulseSeq w <= MAX_SAFE_INTEGER ->
  fst (PulsesService.createPulse this dto w) = Resolved p ->
  let w' := snd (PulsesService.createPulse this dto w) in
  logger w' =
    (logger w ++ [LogInfo ("Created pulse " ++ string_of_Z (Pulse.id p) ++
                           " with slug " ++ Pulse.slug p)])%list /\
  broadcasts w' = (broadcasts w ++ [RefreshPulsesTable])%list /\
  invocations w' = invocations w /\
  Pulse.id p = pulseSeq w /\ pulseSeq w' = pulseSeq w + 1 /\
  Pulse.createdAt p = clock w /\ Pulse.targetId p = None.
Proof.
  intros _. cbv zeta. rewrite createPulse_run. cbv zeta.
  destruct (urlByFQDN _ _) as [[u|]|e]; try discriminate.
  destruct (slugUnique _ && _); try discriminate.
  destruct (refreshPulsesTable _); try discriminate.
  cbn [fst snd]. intros Hp. injection Hp as <-. repeat split.
Qed.

(** X9: with the unique index on the slug column, the slugs of the table
    stay pairwise distinct across [createPulse] whatever the generator
    returns: a repeated slug is refused by the insert. *)
Theorem createPulse_unique_index_keeps_slugs_unique (dto : PulsesDto.t) (w : World) :
  slugUnique (PulsesService.pulse this) = true ->
  PulsesService.uniqueSlugs w ->
  PulsesService.uniqueSlugs (snd (PulsesService.createPulse this dto w)).
Proof.
  intros Hidx Huniq. unfold PulsesService.uniqueSlugs.
  destruct (createPulse_cases this dto w)
    as [(Hps & _)|(u & _ & Htaken & Hps & _)]; rewrite Hps; [exact Huniq|].
  rewrite Hidx in Htaken. simpl in Htaken.
  rewrite map_app. simpl. apply NoDup_snoc; [exact Huniq|].
  apply (slugTaken_false _ w). exact Htaken.
Qed.

(** X10: while the slugs are pairwise distinct, [getPulse] on the slug of
    a stored pulse resolves with that pulse and no other. *)
Theorem getPulse_returns_the_stored_pulse (w : World) (p : Pulse.t) :
  PulsesService.uniqueSlugs w ->
  In p (pulses w) ->
  PulsesService.getPulse (Pulse.slug p) w =
    (Resolved (Some (PulsesService.Pulse_include w p)), w).
Proof.
  intros Huniq HIn.
  unfold PulsesService.getPulse, PulsesService.Pulse_findOne_by_slug.
  destruct (find (fun q => String.eqb (Pulse.slug q) (Pulse.slug p)) (pulses w))
    as [q|] eqn:Hq.
  - apply find_some in Hq. destruct Hq as [HqIn Heq]. apply String.eqb_eq in Heq.
    rewrite (NoDup_map_injective_on Pulse.slug (pulses w) q p Huniq HqIn HIn Heq).
    reflexivity.
  - exfalso. pose proof (find_none _ _ Hq p HIn) as Hno. simpl in Hno.
    rewrite String.eqb_refl in Hno. discriminate.
Qed.

End PulseStoreRuns.

(** ** The listings *)

Lemma firstn_incl {A} (n : nat) (l : list A) (x : A) : In x (firstn n l) -> In x l.
Proof.
  intros H. rewrite <- (firstn_skipn n l). apply in_or_app. left. exact H.
Qed.

Lemma skipn_incl {A} (n : nat) (l : list A) (x : A) : In x (skipn n l) -> In x l.
Proof.
  intros H. rewrite <- (firstn_skipn n l). apply in_or_app. right. exact H.
Qed.

Lemma filter_none {A} (f : A -> bool) (l : list A) :
  (forall x, f x = false) -> filter f l = [].
Proof.
  intros Hf. induction l as [|a l IH]; simpl; [reflexivity|].
  rewrite Hf. exact IH.
Qed.

Lemma NoDup_map_filter {A B} (f : A -> B) (g : A -> bool) (l : list A) :
  NoDup (map f l) -> NoDup (map f (filter g l)).
Proof.
  induction l as [|a l IH]; simpl; intros Hnd; [constructor|].
  inversion Hnd as [|y ys Hnotin Hrest]; subst.
  destruct (g a); simpl; [|apply IH; exact Hrest].
  constructor; [|apply IH; exact Hrest].
  intros HIn. apply Hnotin. apply in_map_iff in HIn.
  destruct HIn as (x & Hx & HxIn). apply filter_In in HxIn.
  rewrite <- Hx. apply in_map. tauto.
Qed.

Lemma list_sum_lower {A} (g : A -> nat) (l : list A) :
  (forall x, (1 <= g x)%nat) -> (List.length l <= list_sum (map g l))%nat.
Proof.
  intros Hg. induction l as [|a l IH]; simpl; [lia|]. pose proof (Hg a). lia.
Qed.

Lemma list_sum_strict {A} (g : A -> nat) (l : list A) (a : A) :
  (forall x, (1 <= g x)%nat) -> In a l -> (2 <= g a)%nat ->
  (List.length l < list_sum (map g l))%nat.
Proof.
  intros Hg. induction l as [|b l IH]; simpl; intros HIn Ha; [contradiction|].
  destruct HIn as [->|HIn].
  - pose proof (list_sum_lower g l Hg). lia.
  - pose proof (IH HIn Ha). pose proof (Hg b). lia.
Qed.

Section ListingFacts.
Import PulsesService.
Context {lists : Lists}.

Lemma between_spec (x : Z) (from to : option Z) :
  between x from to = true <->
  exists a b, from = Some a /\ to = Some b /\ a <= x <= b.
Proof.
  unfold between. destruct from as [a|], to as [b|]; split;
    try discriminate; try (intros (a' & b' & Ha & Hb & _); discriminate).
  - intros H. apply andb_true_iff in H. destruct H as [H1 H2].
    apply Z.leb_le in H1, H2. exists a, b. repeat split; assumption.
  - intros (a' & b' & Ha & Hb & H1 & H2). injection Ha as <-. injection Hb as <-.
    apply andb_true_iff. split; apply Z.leb_le; assumption.
Qed.

Lemma paginate_incl {A} (pg : PaginationParams) (l : list A) (x : A) :
  In x (paginate pg l) -> In x l.
Proof.
  unfold paginate. destruct (limit pg) as [n|], (offset pg) as [m|]; intros H.
  - apply (skipn_incl m). apply (firstn_incl n). exact H.
  - apply (firstn_incl n). exact H.
  - apply (skipn_incl m). exact H.
  - exact H.
Qed.

Lemma paginate_length {A} (pg : PaginationParams) (l : list A) :
  (List.length (paginate pg l) <= List.length l)%nat /\
  (forall n, limit pg = Some n -> (List.length (paginate pg l) <= n)%nat).
Proof.
  unfold paginate. destruct (limit pg) as [n|], (offset pg) as [m|]; split;
    try (intros k Hk; injection Hk as <-); try discriminate;
    rewrite ?length_firstn, ?length_skipn; lia.
Qed.

(** The page of a query, read off [findAndCountAll]: it always resolves,
    leaves the world alone, and every row is a selected pulse of the
    table with its heartbeats. *)
Lemma findAndCountAll_rows (pg : PaginationParams) (order : Order)
      (where_ : Pulse.t -> bool) (withTarget distinct : bool) (w : World) :
  exists page,
    Pulse_findAndCountAll pg order where_ withTarget distinct w = (Resolved page, w) /\
    (forall r, In r (rows page) ->
       In (Pulse.row r) (pulses w) /\ where_ (Pulse.row r) = true /\
       r = Pulse_include_list withTarget w (Pulse.row r)) /\
    (List.length (rows page) <= List.length (filter where_ (pulses w)))%nat /\
    (forall n, limit pg = Some n -> (List.length (rows page) <= n)%nat) /\
    (offset pg = None -> limit pg = None ->
     forall p, In p (pulses w) -> where_ p = true -> listed page p).
Proof.
  eexists. split; [reflexivity|]. cbn [rows].
  split; [|split; [|split]].
  - intros r Hr. apply in_map_iff in Hr. destruct Hr as (p & <- & Hp).
    apply paginate_incl in Hp.
    apply (Permutation_in _ (orderBy_permutes order _)) in Hp.
    apply filter_In in Hp. destruct Hp as [HIn Hsel].
    split; [exact HIn|]. split; [exact Hsel|reflexivity].
  - rewrite length_map.
    rewrite <- (Permutation_length (orderBy_permutes order (filter where_ (pulses w)))).
    apply (proj1 (paginate_length _ _)).
  - intros n Hn. rewrite length_map. apply (proj2 (paginate_length _ _)). exact Hn.
  - intros Hoff Hlim p HIn Hsel.
    exists (Pulse_include_list withTarget w p). split; [|reflexivity].
    apply in_map. unfold paginate. rewrite Hoff, Hlim.
    apply (Permutation_in _ (Permutation_sym (orderBy_permutes order _))).
    apply filter_In. split; assumption.
Qed.

Lemma heartbeatsOf_belong (w : World) (p : Pulse.t) :
  Forall (fun h => Heartbeat.pulseId h = Pulse.id p) (heartbeatsOf w p).
Proof.
  apply Forall_forall. intros h Hh. apply filter_In in Hh.
  destruct Hh as [_ Hh]. apply Z.eqb_eq. exact Hh.
Qed.

(** X11: the three listings resolve without touching the world, and
    every row they return is a stored pulse created within the date
    range, of the asked target ([pulsesByTarget]) or URL ([pulsesByUrl]),
    joined with its own heartbeats only. *)
Theorem listings_return_selected_pulses
        (id : Z) (sort : string) (from to : option Z) (startRow endRow : option Z)
        (w : World) :
  (exists page,
      pulsesByTarget id sort from to startRow endRow w = (Resolved page, w) /\
      forall r, In r (rows page) ->
        In (Pulse.row r) (pulses w) /\
        Pulse.targetId (Pulse.row r) = Some id /\
        (exists a b, from = Some a /\ to = Some b /\
                     a <= Pulse.createdAt (Pulse.row r) <= b) /\
        Forall (fun h => Heartbeat.pulseId h = Pulse.id (Pulse.row r))
               (Pulse.heartbeats r)) /\
  (exists page,
      pulsesByUrl id sort from to startRow endRow w = (Resolved page, w) /\
      forall r, In r (rows page) ->
        In (Pulse.row r) (pulses w) /\
        Pulse.urlId (Pulse.row r) = id /\
        (exists a b, from = Some a /\ to = Some b /\
                     a <= Pulse.createdAt (Pulse.row r) <= b) /\
        Forall (fun h => Heartbeat.pulseId h = Pulse.id (Pulse.row r))
               (Pulse.heartbeats r)) /\
  (exists page,
      allPulses sort from to startRow endRow w = (Resolved page, w) /\
      forall r, In r (rows page) ->
        In (Pulse.row r) (pulses w) /\
        (exists a b, from = Some a /\ to = Some b /\
                     a <= Pulse.createdAt (Pulse.row r) <= b) /\
        Forall (fun h => Heartbeat.pulseId h = Pulse.id (Pulse.row r))
               (Pulse.heartbeats r)).
Proof.
  split; [|split].
  - unfold pulsesByTarget.
    destruct (findAndCountAll_rows (getPaginationParams startRow endRow)
                (getSortParams sort)
                (fun p => targetIs id p && between (Pulse.createdAt p) from to)
                true false w) as (page & Hrun & Hrows & _).
    exists page. split; [exact Hrun|]. intros r Hr.
    destruct (Hrows r Hr) as (HIn & Hsel & Hinc).
    apply andb_true_iff in Hsel. destruct Hsel as [Ht Hb].
    split; [exact HIn|]. split; [|split].
    + unfold targetIs in Ht. destruct (Pulse.targetId (Pulse.row r)) as [t|];
        [|discriminate]. apply Z.eqb_eq in Ht. congruence.
    + apply between_spec. exact Hb.
    + rewrite Hinc. apply heartbeatsOf_belong.
  - unfold pulsesByUrl.
    destruct (findAndCountAll_rows (getPaginationParams startRow endRow)
                (getSortParams sort)
                (fun p => urlIs id p && between (Pulse.createdAt p) from to)
                false false w) as (page & Hrun & Hrows & _).
    exists page. split; [exact Hrun|]. intros r Hr.
    destruct (Hrows r Hr) as (HIn & Hsel & Hinc).
    apply andb_true_iff in Hsel. destruct Hsel as [Hu Hb].
    split; [exact HIn|]. split; [|split].
    + apply Z.eqb_eq. exact Hu.
    + apply between_spec. exact Hb.
    + rewrite Hinc. apply heartbeatsOf_belong.
  - unfold allPulses.
    destruct (findAndCountAll_rows (getPaginationParams startRow endRow)
                (getSortParams sort)
                (fun p => between (Pulse.createdAt p) from to)
                true true w) as (page & Hrun & Hrows & _).
    exists page. split; [exact Hrun|]. intros r Hr.
    destruct (Hrows r Hr) as (HIn & Hsel & Hinc).
    split; [exact HIn|]. split.
    + apply between_spec. exact Hsel.
    + rewrite Hinc. apply heartbeatsOf_belong.
Qed.

Lemma paginate_nil {A} (pg : PaginationParams) : paginate pg (@nil A) = [].
Proof.
  unfold paginate. destruct (limit pg), (offset pg);
    rewrite ?skipn_nil, ?firstn_nil; reflexivity.
Qed.

Lemma findAndCountAll_none (pg : PaginationParams) (order : Order)
      (where_ : Pulse.t -> bool) (withTarget distinct : bool) (w : World) :
  (forall p, where_ p = false) ->
  Pulse_findAndCountAll pg order where_ withTarget distinct w =
    (Resolved {| rows := []; count := 0 |}, w).
Proof.
  intros Hnone. unfold Pulse_findAndCountAll.
  rewrite (filter_none where_ (pulses w) Hnone).
  rewrite (Permutation_nil (Permutation_sym (orderBy_permutes order []))).
  rewrite paginate_nil. destruct distinct; reflexivity.
Qed.

Lemma findAndCountAll_complete (pg : PaginationParams) (order : Order)
      (where_ : Pulse.t -> bool) (withTarget distinct : bool) (w : World)
      (page : Page) (p : Pulse.t) :
  fst (Pulse_findAndCountAll pg order where_ withTarget distinct w) = Resolved page ->
  offset pg = None -> limit pg = None ->
  In p (pulses w) -> where_ p = true ->
  In (Pulse_include_list withTarget w p) (rows page).
Proof.
  cbn [fst Pulse_findAndCountAll]. intros Hpage Hoff Hlim HIn Hsel.
  injection Hpage as <-. cbn [rows].
  apply in_map. unfold paginate. rewrite Hoff, Hlim.
  apply (Permutation_in _ (Permutation_sym (orderBy_permutes order _))).
  apply filter_In. split; assumption.
Qed.

(** X12: a listing asked without one of the date bounds is empty: the
    bound is NULL in the range condition, which then selects no row, and
    the count is zero.  This holds for the three listings and for the
    route [GET /pulses]. *)
Theorem listings_without_date_bound_are_empty
        (id : Z) (sort : string) (from to : option Z) (startRow endRow : option Z)
        (w : World) :
  from = None \/ to = None ->
  pulsesByTarget id sort from to startRow endRow w =
    (Resolved {| rows := []; count := 0 |}, w) /\
  pulsesByUrl id sort from to startRow endRow w =
    (Resolved {| rows := []; count := 0 |}, w) /\
  allPulses sort from to startRow endRow w =
    (Resolved {| rows := []; count := 0 |}, w) /\
  PulsesController.getPulses sort from to startRow endRow w =
    (Resolved {| rows := []; count := 0 |}, w).
Proof.
  intros Hmissing.
  assert (Hb : forall x, between x from to = false).
  { intros x. unfold between. destruct Hmissing as [-> | ->];
      [reflexivity|destruct from; reflexivity]. }
  unfold PulsesController.getPulses, pulsesByTarget, pulsesByUrl, allPulses.
  repeat split; apply findAndCountAll_none; intros p; rewrite Hb;
    try apply andb_false_r; reflexivity.
Qed.

(** X13: the count answered by [GET /pulses] is the number of stored
    pulses created within the date range, whatever the sort and the
    requested rows (the query counts distinct pulses); the page never
    holds more rows than that. *)
Theorem getPulses_counts_the_pulses_in_range
        (sort : string) (from to : option Z) (startRow endRow : option Z) (w : World) :
  NoDup (map Pulse.id (pulses w)) ->
  exists page,
    PulsesController.getPulses sort from to startRow endRow w = (Resolved page, w) /\
    count page =
      List.length (filter (fun p => between (Pulse.createdAt p) from to) (pulses w)) /\
    (List.length (rows page) <= count page)%nat.
Proof.
  intros Hids. unfold PulsesController.getPulses, allPulses.
  destruct (findAndCountAll_rows (getPaginationParams startRow endRow)
              (getSortParams sort) (fun p => between (Pulse.createdAt p) from to)
              true true w) as (page & Hrun & _ & Hlen & _).
  exists page. split; [exact Hrun|].
  assert (Hcount : count page =
            List.length (filter (fun p => between (Pulse.createdAt p) from to) (pulses w))).
  { unfold Pulse_findAndCountAll in Hrun. injection Hrun as <-. cbn [count].
    rewrite nodup_fixed_point; [apply length_map|].
    apply NoDup_map_filter. exact Hids. }
  split; [exact Hcount|]. rewrite Hcount. exact Hlen.
Qed.

Lemma joinedRows_lower (withTarget : bool) (w : World) (p : Pulse.t) :
  (Nat.max 1 (List.length (heartbeatsOf w p)) <= joinedRows withTarget w p)%nat.
Proof.
  unfold joinedRows.
  set (hb := Nat.max 1 (List.length (heartbeatsOf w p))).
  match goal with
  | |- (_ <= _ * Nat.max 1 ?n * _)%nat =>
      pose proof (Nat.le_max_l 1 n); set (us := Nat.max 1 n) in *
  end.
  destruct withTarget.
  - match goal with
    | |- (_ <= _ * _ * Nat.max 1 ?n)%nat =>
        pose proof (Nat.le_max_l 1 n); set (ts := Nat.max 1 n) in *
    end.
    pose proof (Nat.mul_le_mono_l 1 us hb H).
    pose proof (Nat.mul_le_mono_l 1 ts (hb * us) H0). lia.
  - pose proof (Nat.mul_le_mono_l 1 us hb H). lia.
Qed.

Lemma findAndCountAll_joined_count (pg : PaginationParams) (order : Order)
      (where_ : Pulse.t -> bool) (withTarget : bool) (w : World) :
  exists page,
    Pulse_findAndCountAll pg order where_ withTarget false w = (Resolved page, w) /\
    (List.length (filter where_ (pulses w)) <= count page)%nat /\
    (forall p, In p (pulses w) -> where_ p = true ->
               (2 <= List.length (heartbeatsOf w p))%nat ->
               (List.length (filter where_ (pulses w)) < count page)%nat).
Proof.
  eexists. split; [reflexivity|]. cbn [count].
  assert (Hone : forall p, (1 <= joinedRows withTarget w p)%nat).
  { intros p. pose proof (joinedRows_lower withTarget w p). lia. }
  split; [apply list_sum_lower; exact Hone|].
  intros p HIn Hsel Hhb. apply (list_sum_strict _ _ p Hone).
  - apply filter_In. split; assumption.
  - pose proof (joinedRows_lower withTarget w p). lia.
Qed.

(** X14: [pulsesByTarget] and [pulsesByUrl] do not ask for a distinct
    count: their count is the number of rows of the join with the
    heartbeats.  It is never below the number of selected pulses, and it
    exceeds it as soon as one selected pulse has two heartbeats. *)
Theorem listings_by_target_and_url_count_joined_rows
        (id : Z) (sort : string) (from to : option Z) (startRow endRow : option Z)
        (w : World) :
  (exists page,
      pulsesByTarget id sort from to startRow endRow w = (Resolved page, w) /\
      (List.length (rows page) <= count page)%nat /\
      forall p, In p (pulses w) -> Pulse.targetId p = Some id ->
                between (Pulse.createdAt p) from to = true ->
                (2 <= List.length (heartbeatsOf w p))%nat ->
                (List.length
                   (filter (fun q => targetIs id q && between (Pulse.createdAt q) from to)
                           (pulses w)) < count page)%nat) /\
  (exists page,
      pulsesByUrl id sort from to startRow endRow w = (Resolved page, w) /\
      (List.length (rows page) <= count page)%nat /\
      forall p, In p (pulses w) -> Pulse.urlId p = id ->
                between (Pulse.createdAt p) from to = true ->
                (2 <= List.length (heartbeatsOf w p))%nat ->
                (List.length
                   (filter (fun q => urlIs id q && between (Pulse.createdAt q) from to)
                           (pulses w)) < count page)%nat).
Proof.
  split.
  - unfold pulsesByTarget.
    destruct (findAndCountAll_joined_count (getPaginationParams startRow endRow)
                (getSortParams sort)
                (fun p => targetIs id p && between (Pulse.createdAt p) from to)
                true w) as (page & Hrun & Hlow & Hstrict).
    destruct (findAndCountAll_rows (getPaginationParams startRow endRow)
                (getSortParams sort)
                (fun p => targetIs id p && between (Pulse.createdAt p) from to)
                true false w) as (page' & Hrun' & _ & Hlen & _).
    rewrite Hrun in Hrun'. injection Hrun' as <-.
    exists page. split; [exact Hrun|]. split; [lia|].
    intros p HIn Ht Hb Hhb. apply (Hstrict p HIn); [|exact Hhb].
    unfold targetIs. rewrite Ht, Z.eqb_refl, Hb. reflexivity.
  - unfold pulsesByUrl.
    destruct (findAndCountAll_joined_count (getPaginationParams startRow endRow)
                (getSortParams sort)
                (fun p => urlIs id p && between (Pulse.createdAt p) from to)
                false w) as (page & Hrun & Hlow & Hstrict).
    destruct (findAndCountAll_rows (getPaginationParams startRow endRow)
                (getSortParams sort)
                (fun p => urlIs id p && between (Pulse.createdAt p) from to)
                false false w) as (page' & Hrun' & _ & Hlen & _).
    rewrite Hrun in Hrun'. injection Hrun' as <-.
    exists page. split; [exact Hrun|]. split; [lia|].
    intros p HIn Hu Hb Hhb. apply (Hstrict p HIn); [|exact Hhb].
    unfold urlIs. rewrite Hu, Z.eqb_refl, Hb. reflexivity.
Qed.

(** X15: without pagination (no offset and no limit in the pagination
    parameters) a listing is complete: every stored pulse created within
    the range is on the page of [allPulses], and on the page of
    [pulsesByTarget] or [pulsesByUrl] for its own target or URL. *)
Theorem listings_without_pagination_are_complete
        (sort : string) (a b : Z) (startRow endRow : option Z) (w : World) (p : Pulse.t) :
  offset (getPaginationParams startRow endRow) = None ->
  limit (getPaginationParams startRow endRow) = None ->
  In p (pulses w) ->
  a <= Pulse.createdAt p <= b ->
  (forall page,
     fst (allPulses sort (Some a) (Some b) startRow endRow w) = Resolved page ->
     listed page p) /\
  (forall id page,
     Pulse.targetId p = Some id ->
     fst (pulsesByTarget id sort (Some a) (Some b) startRow endRow w) = Resolved page ->
     listed page p) /\
  (forall page,
     fst (pulsesByUrl (Pulse.urlId p) sort (Some a) (Some b) startRow endRow w)
       = Resolved page ->
     listed page p).
Proof.
  intros Hoff Hlim HIn Hrange.
  assert (Hb : between (Pulse.createdAt p) (Some a) (Some b) = true)
    by (apply between_spec; exists a, b; repeat split; tauto).
  split; [|split].
  - intros page Hpage. exists (Pulse_include_list true w p). split; [|reflexivity].
    unfold allPulses in Hpage.
    apply (findAndCountAll_complete _ _ _ _ _ _ _ _ Hpage Hoff Hlim HIn Hb).
  - intros id page Ht Hpage. exists (Pulse_include_list true w p).
    split; [|reflexivity]. unfold pulsesByTarget in Hpage.
    apply (findAndCountAll_complete _ _ _ _ _ _ _ _ Hpage Hoff Hlim HIn).
    unfold targetIs. rewrite Ht, Z.eqb_refl, Hb. reflexivity.
  - intros page Hpage. exists (Pulse_include_list false w p). split; [|reflexivity].
    unfold pulsesByUrl in Hpage.
    apply (findAndCountAll_complete _ _ _ _ _ _ _ _ Hpage Hoff Hlim HIn).
    unfold urlIs. rewrite Z.eqb_refl, Hb. reflexivity.
Qed.

(** X16: when the pagination parameters carry a limit, no listing
    returns more rows than the limit. *)
Theorem listings_respect_the_limit
        (id : Z) (sort : string) (from to : option Z) (startRow endRow : option Z)
        (w : World) (n : nat) :
  limit (getPaginationParams startRow endRow) = Some n ->
  (forall page,
     fst (pulsesByTarget id sort from to startRow endRow w) = Resolved page ->
     (List.length (rows page) <= n)%nat) /\
  (forall page,
     fst (pulsesByUrl id sort from to startRow endRow w) = Resolved page ->
     (List.length (rows page) <= n)%nat) /\
  (forall page,
     fst (allPulses sort from to startRow endRow w) = Resolved page ->
     (List.length (rows page) <= n)%nat).
Proof.
  intros Hlimit.
  repeat split; intros page Hpage;
    match type of Hpage with
    | fst (?m w) = _ =>
        let m' := eval unfold pulsesByTarget, pulsesByUrl, allPulses in m in
        change (fst (m' w) = Resolved page) in Hpage
    end;
    match type of Hpage with
    | fst (Pulse_findAndCountAll ?pg ?o ?f ?t ?d w) = _ =>
        destruct (findAndCountAll_rows pg o f t d w) as (page' & Hrun & _ & _ & Hlim & _);
        rewrite Hrun in Hpage; injection Hpage as <-; exact (Hlim n Hlimit)
    end.
Qed.

(** X17: every pulse listed by [pulsesByTarget] is listed, with the same
    associations, by [allPulses] for the same date range when the latter
    is not paginated. *)
Theorem pulsesByTarget_within_allPulses
        (id : Z) (sort sort' : string) (from to : option Z)
        (startRow endRow startRow' endRow' : option Z) (w : World)
        (page all : Page) (r : Pulse.loaded) :
  offset (getPaginationParams startRow' endRow') = None ->
  limit (getPaginationParams startRow' endRow') = None ->
  fst (pulsesByTarget id sort from to startRow endRow w) = Resolved page ->
  fst (allPulses sort' from to startRow' endRow' w) = Resolved all ->
  In r (rows page) -> In r (rows all).
Proof.
  intros Hoff Hlim Hpage Hall Hr.
  unfold pulsesByTarget in Hpage.
  destruct (findAndCountAll_rows (getPaginationParams startRow endRow)
              (getSortParams sort)
              (fun p => targetIs id p && between (Pulse.createdAt p) from to)
              true false w) as (page' & Hrun & Hrows & _).
  rewrite Hrun in Hpage. injection Hpage as <-.
  destruct (Hrows r Hr) as (HIn & Hsel & Hinc).
  apply andb_true_iff in Hsel. destruct Hsel as [_ Hb].
  rewrite Hinc. unfold allPulses in Hall.
  apply (findAndCountAll_complete _ _ _ _ _ _ _ _ Hall Hoff Hlim HIn Hb).
Qed.

End ListingFacts.

(** ** Creation and the listings *)

Section CreatedAndListed.
Import PulsesService.
Context {imports : Imports} {lists : Lists}.
Variable this : PulsesService.t.

(** X18: a pulse that [createPulse] has just returned is found by
    [pulsesByUrl] for its URL record, when the date range holds the time
    of the call and the listing is not paginated. *)
Theorem createPulse_listed_by_url
        (dto : PulsesDto.t) (w : World) (p : Pulse.t)
        (sort : string) (a b : Z) (startRow endRow : option Z) (page : Page) :
  fst (createPulse this dto w) = Resolved p ->
  offset (getPaginationParams startRow endRow) = None ->
  limit (getPaginationParams startRow endRow) = None ->
  a <= clock w <= b ->
  fst (pulsesByUrl (Pulse.urlId p) sort (Some a) (Some b) startRow endRow
         (snd (createPulse this dto w))) = Resolved page ->
  listed page p.
Proof.
  intros Hp Hoff Hlim Hrange Hpage.
  destruct (createPulse_cases this dto w)
    as [(_ & _ & e & He)|(u & _ & _ & Hps & _ & Hout)];
    [rewrite He in Hp; discriminate|].
  destruct (refreshPulsesTable _); rewrite Hout in Hp; [|discriminate].
  injection Hp as <-.
  exists (Pulse_include_list false (snd (createPulse this dto w))
            (Pulse_build this (nanoid (nanoidCalls w)) (Url.id u)
               (PulsesDto.playlistId dto) w)).
  split; [|reflexivity]. unfold pulsesByUrl in Hpage.
  apply (findAndCountAll_complete _ _ _ _ _ _ _ _ Hpage Hoff Hlim).
  - rewrite Hps. apply in_or_app. right. left. reflexivity.
  - unfold urlIs. rewrite Z.eqb_refl. simpl.
    apply andb_true_iff. split; apply Z.leb_le; tauto.
Qed.

(** X19: [createPulse] gives the pulse no target, so the pulse it returns
    is on no page of [pulsesByTarget], for any target, in any world. *)
Theorem createPulse_never_listed_by_target
        (dto : PulsesDto.t) (w : World) (p : Pulse.t)
        (id : Z) (sort : string) (from to : option Z) (startRow endRow : option Z)
        (w' : World) (page : Page) :
  fst (createPulse this dto w) = Resolved p ->
  fst (pulsesByTarget id sort from to startRow endRow w') = Resolved page ->
  ~ listed page p.
Proof.
  intros Hp Hpage (r & Hr & Hrow).
  assert (Hnone : Pulse.targetId p = None).
  { destruct (createPulse_cases this dto w)
      as [(_ & _ & e & He)|(u & _ & _ & _ & _ & Hout)];
      [rewrite He in Hp; discriminate|].
    destruct (refreshPulsesTable _); rewrite Hout in Hp; [|discriminate].
    injection Hp as <-. reflexivity. }
  unfold pulsesByTarget in Hpage.
  destruct (findAndCountAll_rows (getPaginationParams startRow endRow)
              (getSortParams sort)
              (fun q => targetIs id q && between (Pulse.createdAt q) from to)
              true false w') as (page' & Hrun & Hrows & _).
  rewrite Hrun in Hpage. injection Hpage as <-.
  destruct (Hrows r Hr) as (_ & Hsel & _).
  rewrite Hrow in Hsel. unfold targetIs in Hsel. rewrite Hnone in Hsel. discriminate.
Qed.

End CreatedAndListed.

(** ** The properties on concrete inputs *)

Section Runs.
Import Fixtures Orchestration.

(** C3: for the request of a user with memberships and a worker that
    answers, [POST /pulses] resolves with [undefined]; the answer of the
    worker is dropped, the pulses table is still empty and no slug has
    been drawn.  The service's own [createPulse] on the same request
    does return the pulse it has created. *)
Theorem controller_createPulse_answers_undefined :
  @PulsesController.createPulse Fixtures.imports service dto request emptyWorld =
    (Resolved tt,
     set_invocations [@PulsesService.invokeParams Fixtures.imports "example.com" 5]
                     emptyWorld) /\
  pulses (snd (@PulsesController.createPulse Fixtures.imports service dto request
                 emptyWorld)) = [] /\
  fst (@PulsesService.createPulse Fixtures.imports service dto emptyWorld) =
    Resolved firstPulse.
Proof. repeat split. Qed.

(** C1 on a run: the lambda client is down, the trigger resolves and
    the failure is in the log. *)
Lemma triggerPulse_absorbs_invocation_failure_run :
  exists w',
    @PulsesService.triggerPulse (importsWith lambdaDown) service dto alice emptyWorld =
      (Resolved tt, w') /\
    logger w' =
      ([] ++ [LogError "Error invoking lambda:"
                (ServiceException "ServiceUnavailableException")])%list /\
    invocations w' =
      ([] ++ [@PulsesService.invokeParams (importsWith lambdaDown) "example.com" 5])%list /\
    pulses w' = [] /\ heartbeats w' = [] /\ broadcasts w' = [].
Proof.
  apply (@triggerPulse_absorbs_invocation_failure (importsWith lambdaDown) service
           dto alice alice {| Membership.id := 5 |}
           (ServiceException "ServiceUnavailableException") emptyWorld);
    reflexivity.
Defined.

(** C4 on a run: the first of two memberships is the one dispatched. *)
Lemma triggerPulse_payload_first_membership_run :
  exists command,
    invocations (snd (@PulsesService.triggerPulse Fixtures.imports service dto alice
                        emptyWorld)) = ([] ++ [command])%list /\
    Json_get "membership_id" (Payload command) = Some (JNumber 5) /\
    Json_get "url" (Payload command) = Some (JString "example.com").
Proof.
  apply (@triggerPulse_payload_first_membership Fixtures.imports service dto alice alice
           [] [Some {| Membership.id := 9 |}] {| Membership.id := 5 |} emptyWorld).
  - reflexivity.
  - reflexivity.
  - constructor.
Defined.

(** C10 on a run: a user without memberships. *)
Lemma triggerPulse_without_membership_run :
  @PulsesService.triggerPulse Fixtures.imports service dto bob emptyWorld =
    (Rejected (TypeError "Cannot read properties of undefined (reading 'id')"),
     emptyWorld) /\
  invocations (snd (@PulsesService.triggerPulse Fixtures.imports service dto bob
                      emptyWorld)) = [] /\
  logger (snd (@PulsesService.triggerPulse Fixtures.imports service dto bob
                 emptyWorld)) = [].
Proof.
  apply (@triggerPulse_without_membership_rejects Fixtures.imports service dto bob bob
           emptyWorld); reflexivity.
Defined.



(** C6 on a run: from the empty world the pulse of the request is
    written, Pending, and returned. *)
Lemma createPulse_persists_one_pending_row_run :
  exists row,
    pulses createdWorld = ([] ++ [row])%list /\
    Pulse.status row = Pending /\
    Pulse.playlistId row = 3 /\
    Pulse.urlId row = 10 /\
    Pulse.slug row = "slug-0" /\
    (refreshPulsesTable notificationsSvc = Resolved tt ->
     fst (@PulsesService.createPulse Fixtures.imports service dto emptyWorld)
       = Resolved row).
Proof.
  apply (proj1 (@createPulse_persists_one_pending_row Fixtures.imports true urlsSvc
                  notificationsSvc usersSvc dto emptyWorld) exampleUrl);
    reflexivity.
Defined.

(** C7 on a run: [example.com] and [http://www.example.com] have the
    same canonical form and lead to the same Url record. *)
Lemma createPulse_references_canonical_url_run :
  exists p1 p2,
    fst (@PulsesService.createPulse Fixtures.imports service dto emptyWorld) = Resolved p1 /\
    fst (@PulsesService.createPulse Fixtures.imports service dtoWww createdWorld)
      = Resolved p2 /\
    Pulse.urlId p1 = 10 /\ Pulse.urlId p2 = 10 /\
    In p1 (pulses (snd (@PulsesService.createPulse Fixtures.imports service dto
                          emptyWorld))) /\
    In p2 (pulses (snd (@PulsesService.createPulse Fixtures.imports service dtoWww
                          createdWorld))).
Proof.
  apply (proj2 (@createPulse_references_canonical_url Fixtures.imports service
                  dto dtoWww emptyWorld createdWorld eq_refl) exampleUrl);
    reflexivity.
Defined.

(** C8 on a run: a pulse expecting two slots receives a heartbeat, its
    duplicate, and is then expired by the reaper; a late heartbeat does
    not reopen it. *)
Lemma status_moves_forward_only_run :
  exists q,
    nth_error
      (pulses (@run Fixtures.imports service twoSlots 60
                 [Ingest 1 7 "a"; Ingest 1 7 "a"; Tick 100; Reap; Ingest 1 8 "b"]
                 createdWorld)) 0 = Some q /\
    q = Pulse.withStatus firstPulse (Pulse.status q) /\
    (Pulse.status q = Pulse.status firstPulse \/
     (rank (Pulse.status firstPulse) < rank (Pulse.status q))%nat) /\
    (isTerminal (Pulse.status firstPulse) = true ->
     Pulse.status q = Pulse.status firstPulse).
Proof.
  apply (@status_moves_forward_only Fixtures.imports service twoSlots 60
           [Ingest 1 7 "a"; Ingest 1 7 "a"; Tick 100; Reap; Ingest 1 8 "b"]
           createdWorld 0%nat firstPulse).
  reflexivity.
Defined.

(** C9 as stated fails: the pulse was completed by the heartbeat of
    slot 7; the same heartbeat delivered again is not answered
    Duplicate but rejected as PulseTerminal (and kept for audit). *)
Lemma redelivery_after_completion_is_rejected :
  acceptedFor 1 7 completedWorld = 1%nat /\
  @ingest oneSlot 1 7 "lcp=1200" completedWorld =
    (Resolved (RejectedHeartbeat PulseTerminal),
     set_auditLog [delivered 1 7 "lcp=1200" completedWorld] completedWorld) /\
  fst (@ingest oneSlot 1 7 "lcp=1200" completedWorld) <> Resolved Duplicate.
Proof.
  split; [reflexivity|]. split; [reflexivity|]. vm_compute. discriminate.
Qed.

(** C9, as amended, on a run: one delivery, its duplicate, and a
    delivery for another slot. *)
Lemma heartbeat_counted_at_most_once_run :
  let ops := [CreatePulse dto; Ingest 1 7 "a"; Ingest 1 7 "a"; Ingest 1 8 "b"] in
  let w' := @run Fixtures.imports service twoSlots 60 ops emptyWorld in
  (acceptedFor 1 7 w' <= 1)%nat /\
  acceptedFor 1 7 w' =
    (acceptedFor 1 7 emptyWorld +
     @acceptedDeliveries Fixtures.imports service twoSlots 60 1 7 ops emptyWorld)%nat /\
  (forall payload,
     acceptedFor 1 7 w' = 1%nat ->
     exists p,
       pulseById 1 w' = Some p /\
       fst (@ingest twoSlots 1 7 payload w') =
         Resolved (if isTerminal (Pulse.status p)
                   then RejectedHeartbeat PulseTerminal else Duplicate) /\
       acceptedFor 1 7 (snd (@ingest twoSlots 1 7 payload w')) = 1%nat /\
       pulses (snd (@ingest twoSlots 1 7 payload w')) = pulses w').
Proof.
  apply (@heartbeat_counted_at_most_once Fixtures.imports service twoSlots 60
           [CreatePulse dto; Ingest 1 7 "a"; Ingest 1 7 "a"; Ingest 1 8 "b"]
           emptyWorld 1 7).
  - constructor.
  - intros h [].
Defined.

End Runs.

(** ** The further properties on concrete inputs *)

Section FurtherRuns.
Import Fixtures ListFixtures PulsesService.

(** X3 on a run: another playlist and a requester object without
    memberships, same URL and same id. *)
Lemma triggerPulse_reads_url_and_requester_id_run :
  @triggerPulse Fixtures.imports service dto alice emptyWorld =
  @triggerPulse Fixtures.imports service
    {| PulsesDto.url := "example.com"; PulsesDto.playlistId := 99 |}
    {| User.id := 1; User.memberships := [] |} emptyWorld.
Proof.
  apply (@triggerPulse_reads_url_and_requester_id Fixtures.imports service); reflexivity.
Defined.

(** X4 on a run. *)
Lemma getPulse_after_createPulse_run :
  exists found,
    fst (getPulse (Pulse.slug firstPulse)
           (snd (@createPulse Fixtures.imports service dto emptyWorld)))
      = Resolved (Some found) /\
    Pulse.row found = firstPulse.
Proof.
  apply (@getPulse_after_createPulse Fixtures.imports service dto emptyWorld firstPulse).
  - reflexivity.
  - left. reflexivity.
Defined.

(** X5 on a run: a second creation leaves the first pulse as it was. *)
Lemma createPulse_keeps_stored_pulses_run :
  fst (getPulse "slug-0"
         (snd (@createPulse Fixtures.imports service dtoWww createdWorld)))
    = Resolved (Some (Pulse_include createdWorld firstPulse)).
Proof.
  apply (@createPulse_keeps_stored_pulses Fixtures.imports service dtoWww createdWorld
           "slug-0" (Pulse_include createdWorld firstPulse)).
  reflexivity.
Defined.

(** X6 on a run: no Url record for [unknown.org]. *)
Lemma createPulse_unresolved_url_writes_nothing_run :
  (exists e, fst (@createPulse Fixtures.imports service dtoUnknown emptyWorld) = Rejected e) /\
  pulses (snd (@createPulse Fixtures.imports service dtoUnknown emptyWorld)) = [] /\
  logger (snd (@createPulse Fixtures.imports service dtoUnknown emptyWorld)) = [] /\
  broadcasts (snd (@createPulse Fixtures.imports service dtoUnknown emptyWorld)) = [] /\
  nanoidCalls (snd (@createPulse Fixtures.imports service dtoUnknown emptyWorld)) = 1%nat.
Proof.
  apply (@createPulse_unresolved_url_writes_nothing Fixtures.imports service dtoUnknown
           emptyWorld).
  intros u. vm_compute. discriminate.
Defined.

(** X7 on a run: the broadcast throws after the insert. *)
Lemma createPulse_rejected_broadcast_keeps_row_run :
  fst (@createPulse Fixtures.imports serviceMuted dto emptyWorld)
    = Rejected (ServiceException "socket closed") /\
  pulses (snd (@createPulse Fixtures.imports serviceMuted dto emptyWorld))
    = [firstPulse] /\
  logger (snd (@createPulse Fixtures.imports serviceMuted dto emptyWorld))
    = [LogInfo "Created pulse 1 with slug slug-0"] /\
  broadcasts (snd (@createPulse Fixtures.imports serviceMuted dto emptyWorld)) = [].
Proof.
  apply (@createPulse_rejected_broadcast_keeps_row Fixtures.imports serviceMuted dto
           emptyWorld exampleUrl (ServiceException "socket closed")); reflexivity.
Defined.

(** X8 on a run. *)
Lemma createPulse_resolved_effects_run :
  logger createdWorld = [LogInfo "Created pulse 1 with slug slug-0"] /\
  broadcasts createdWorld = [RefreshPulsesTable] /\
  invocations createdWorld = [] /\
  Pulse.id firstPulse = 1 /\ pulseSeq createdWorld = 2 /\
  Pulse.createdAt firstPulse = 1000 /\ Pulse.targetId firstPulse = None.
Proof.
  apply (@createPulse_resolved_effects Fixtures.imports service dto emptyWorld firstPulse).
  - unfold MAX_SAFE_INTEGER. simpl. lia.
  - reflexivity.
Defined.

(** X9 on a run: the generator repeats itself, the index refuses. *)
Lemma createPulse_unique_index_keeps_slugs_unique_run :
  uniqueSlugs (snd (@createPulse importsStuck service dto collidingWorld)).
Proof.
  apply (@createPulse_unique_index_keeps_slugs_unique importsStuck service dto
           collidingWorld).
  - reflexivity.
  - unfold uniqueSlugs. simpl. constructor; [intros []|constructor].
Defined.

(** X10 on a run. *)
Lemma getPulse_returns_the_stored_pulse_run :
  getPulse "slug-0" createdWorld =
    (Resolved (Some (Pulse_include createdWorld firstPulse)), createdWorld).
Proof.
  apply (getPulse_returns_the_stored_pulse createdWorld firstPulse).
  - unfold uniqueSlugs. simpl. constructor; [intros []|constructor].
  - left. reflexivity.
Defined.

(** X12 on a run: the start of the range is missing. *)
Lemma listings_without_date_bound_are_empty_run :
  @pulsesByTarget ListFixtures.lists 4 "createdAt" None (Some 3000) None None listedWorld =
    (Resolved {| rows := []; count := 0 |}, listedWorld) /\
  @pulsesByUrl ListFixtures.lists 4 "createdAt" None (Some 3000) None None listedWorld =
    (Resolved {| rows := []; count := 0 |}, listedWorld) /\
  @allPulses ListFixtures.lists "createdAt" None (Some 3000) None None listedWorld =
    (Resolved {| rows := []; count := 0 |}, listedWorld) /\
  @PulsesController.getPulses ListFixtures.lists "createdAt" None (Some 3000) None None
     listedWorld =
    (Resolved {| rows := []; count := 0 |}, listedWorld).
Proof.
  apply (@listings_without_date_bound_are_empty ListFixtures.lists 4 "createdAt"
           None (Some 3000) None None listedWorld).
  left. reflexivity.
Defined.

Lemma listedWorld_ids : NoDup (map Pulse.id (pulses listedWorld)).
Proof.
  simpl. constructor; [simpl; intros [H|[H|[]]]; discriminate|].
  constructor; [simpl; intros [H|[]]; discriminate|].
  constructor; [intros []|constructor].
Defined.

(** X13 on a run: three pulses in range, one row asked. *)
Lemma getPulses_counts_the_pulses_in_range_run :
  exists page,
    @PulsesController.getPulses ListFixtures.lists "createdAt" (Some 0) (Some 3000)
       (Some 0) (Some 1) listedWorld = (Resolved page, listedWorld) /\
    count page = 3%nat /\
    (List.length (rows page) <= count page)%nat.
Proof.
  apply (@getPulses_counts_the_pulses_in_range ListFixtures.lists "createdAt"
           (Some 0) (Some 3000) (Some 0) (Some 1) listedWorld listedWorld_ids).
Defined.

(** X14 on a run: two pulses of target 4, one with two heartbeats: the
    count is above two. *)
Lemma listings_by_target_and_url_count_joined_rows_run :
  exists page,
    @pulsesByTarget ListFixtures.lists 4 "createdAt" (Some 0) (Some 3000) None None
       listedWorld = (Resolved page, listedWorld) /\
    (2 < count page)%nat.
Proof.
  destruct (proj1 (@listings_by_target_and_url_count_joined_rows ListFixtures.lists 4
                     "createdAt" (Some 0) (Some 3000) None None listedWorld))
    as (page & Hrun & _ & Hstrict).
  exists page. split; [exact Hrun|].
  apply (Hstrict (targeted 1 "a" 4 1000)).
  - left. reflexivity.
  - reflexivity.
  - reflexivity.
  - simpl. lia.
Defined.

(** X15 on a run: the second pulse of target 4. *)
Lemma listings_without_pagination_are_complete_run :
  (forall page,
     fst (@allPulses ListFixtures.lists "createdAt" (Some 0) (Some 3000) None None
            listedWorld) = Resolved page ->
     listed page (targeted 2 "b" 4 1500)) /\
  (forall id page,
     Pulse.targetId (targeted 2 "b" 4 1500) = Some id ->
     fst (@pulsesByTarget ListFixtures.lists id "createdAt" (Some 0) (Some 3000) None None
            listedWorld) = Resolved page ->
     listed page (targeted 2 "b" 4 1500)) /\
  (forall page,
     fst (@pulsesByUrl ListFixtures.lists (Pulse.urlId (targeted 2 "b" 4 1500))
            "createdAt" (Some 0) (Some 3000) None None listedWorld) = Resolved page ->
     listed page (targeted 2 "b" 4 1500)).
Proof.
  apply (@listings_without_pagination_are_complete ListFixtures.lists "createdAt"
           0 3000 None None listedWorld (targeted 2 "b" 4 1500)).
  - reflexivity.
  - reflexivity.
  - right. left. reflexivity.
  - simpl. lia.
Defined.

(** X16 on a run: one row asked. *)
Lemma listings_respect_the_limit_run :
  (forall page,
     fst (@pulsesByTarget ListFixtures.lists 4 "createdAt" (Some 0) (Some 3000)
            (Some 0) (Some 1) listedWorld) = Resolved page ->
     (List.length (rows page) <= 1)%nat) /\
  (forall page,
     fst (@pulsesByUrl ListFixtures.lists 4 "createdAt" (Some 0) (Some 3000)
            (Some 0) (Some 1) listedWorld) = Resolved page ->
     (List.length (rows page) <= 1)%nat) /\
  (forall page,
     fst (@allPulses ListFixtures.lists "createdAt" (Some 0) (Some 3000)
            (Some 0) (Some 1) listedWorld) = Resolved page ->
     (List.length (rows page) <= 1)%nat).
Proof.
  apply (@listings_respect_the_limit ListFixtures.lists 4 "createdAt" (Some 0) (Some 3000)
           (Some 0) (Some 1) listedWorld 1%nat).
  reflexivity.
Defined.

(** X17 on a run: the first pulse of target 4 is on the page of all
    pulses, with its two heartbeats. *)
Lemma pulsesByTarget_within_allPulses_run :
  In (Pulse_include_list true listedWorld (targeted 1 "a" 4 1000))
     (rows (pageOf (@allPulses ListFixtures.lists "createdAt" (Some 0) (Some 3000)
                      None None listedWorld))).
Proof.
  apply (@pulsesByTarget_within_allPulses ListFixtures.lists 4 "createdAt" "createdAt"
           (Some 0) (Some 3000) (Some 0) (Some 1) None None listedWorld
           (pageOf (@pulsesByTarget ListFixtures.lists 4 "createdAt" (Some 0) (Some 3000)
                      (Some 0) (Some 1) listedWorld))
           (pageOf (@allPulses ListFixtures.lists "createdAt" (Some 0) (Some 3000)
                      None None listedWorld))).
  - reflexivity.
  - reflexivity.
  - reflexivity.
  - reflexivity.
  - left. reflexivity.
Defined.

(** X18 on a run. *)
Lemma createPulse_listed_by_url_run :
  listed (pageOf (@pulsesByUrl ListFixtures.lists 10 "createdAt" (Some 0) (Some 2000)
                    None None createdWorld)) firstPulse.
Proof.
  apply (@createPulse_listed_by_url Fixtures.imports ListFixtures.lists service dto
           emptyWorld firstPulse "createdAt" 0 2000 None None).
  - reflexivity.
  - reflexivity.
  - reflexivity.
  - simpl. lia.
  - reflexivity.
Defined.

(** X19 on a run: the created pulse is on no page by target. *)
Lemma createPulse_never_listed_by_target_run :
  fst (@createPulse Fixtures.imports service dto emptyWorld) = Resolved firstPulse /\
  ~ listed (pageOf (@pulsesByTarget ListFixtures.lists 4 "createdAt" (Some 0) (Some 3000)
                      None None createdWorld)) firstPulse.
Proof.
  split; [reflexivity|].
  apply (@createPulse_never_listed_by_target Fixtures.imports ListFixtures.lists service
           dto emptyWorld firstPulse 4 "createdAt" (Some 0) (Some 3000) None None
           createdWorld).
  - reflexivity.
  - reflexivity.
Defined.

End FurtherRuns.
